(** * Sales dashboard (programma_commerciali.py): a shallow embedding

    The program keeps sales records in the SQLite table [vendite], loads them
    from a CSV file on every run, lets a salesperson narrow their own records
    with [query_data], and answers canned questions with
    [get_agent_response].

    Conventions of the embedding
    - a Python [str] is a [string] of UTF-8 bytes (substring tests on code
      points and on UTF-8 bytes agree);
    - a call that may raise returns a [result];
    - a [DataFrame] is the list of its rows, in index order, with the default
      range index that [pd.read_sql_query] produces; an [int64] column holds
      [Z], a [float64] column holds primitive floats;
    - the database behind the connection is explicit state ([Conn]);
    - what is only shown or printed (the Streamlit widgets, [print(e)]) is
      left out, except for the banner that ends the loading block. *)

From Stdlib Require Import ZArith List String Ascii Bool Lia Sorted.
From Stdlib Require Import OrderedTypeEx DecimalString DecimalPos Permutation.
From Stdlib Require Import PrimFloat FloatOps SpecFloat.
Import ListNotations.
Open Scope string_scope.
Open Scope Z_scope.

(* ================================================================== *)
(** ** Python: exceptions and results *)

(** The exception classes this program can meet.  The two [sqlite3_*]
    classes derive from [sqlite3.Error]; [pandas_DatabaseError] is
    [pandas.errors.DatabaseError], which derives from [OSError]. *)
Inductive exn : Type :=
| ValueError
| sqlite3_IntegrityError
| sqlite3_OperationalError
| pandas_DatabaseError.

(** [isinstance(e, sqlite3.Error)] *)
Definition isinstance_sqlite3_Error (e : exn) : bool :=
  match e with
  | sqlite3_IntegrityError | sqlite3_OperationalError => true
  | ValueError | pandas_DatabaseError => false
  end.

Inductive result (A : Type) : Type :=
| Ok (a : A)
| Raise (e : exn).
Arguments Ok {A} a.
Arguments Raise {A} e.

Definition bind {A B : Type} (m : result A) (k : A -> result B) : result B :=
  match m with
  | Ok a => k a
  | Raise e => Raise e
  end.

Notation "x <- m ;; k" := (bind m (fun x => k))
  (at level 61, m at next level, right associativity).

(* ================================================================== *)
(** ** Python: [int(str)], truthiness, substring test *)

(** Whitespace that [int] strips (the ASCII part of [str.isspace]). *)
Definition is_space (c : ascii) : bool :=
  let n := nat_of_ascii c in
  (((9 <=? n) && (n <=? 13)) || ((28 <=? n) && (n <=? 31)) || (n =? 32))%nat.

Fixpoint lstrip (l : list ascii) : list ascii :=
  match l with
  | c :: t => if is_space c then lstrip t else l
  | [] => []
  end.

Definition strip (l : list ascii) : list ascii :=
  rev (lstrip (rev (lstrip l))).

Definition digit_val (c : ascii) : option Z :=
  let n := Z.of_nat (nat_of_ascii c) in
  if (48 <=? n) && (n <=? 57) then Some (n - 48) else None.

(** Decimal digits with single underscores allowed between two digits. *)
Fixpoint digits (acc : Z) (after_digit : bool) (l : list ascii) : option Z :=
  match l with
  | [] => if after_digit then Some acc else None
  | c :: t =>
      match digit_val c with
      | Some d => digits (10 * acc + d) true t
      | None =>
          if Ascii.eqb c "_"%char && after_digit
          then digits acc false t
          else None
      end
  end.

(** [int(s)] for a string argument, base 10: surrounding whitespace, an
    optional sign, digits.  [None] stands for [ValueError].  Input outside
    ASCII (other Unicode spaces and digits) and the interpreter's limit on
    the number of digits are not modelled. *)
Definition py_int (s : string) : option Z :=
  match strip (list_ascii_of_string s) with
  | "+"%char :: t => digits 0 false t
  | "-"%char :: t => option_map Z.opp (digits 0 false t)
  | l => digits 0 false l
  end.

Definition int (s : string) : result Z :=
  match py_int s with
  | Some z => Ok z
  | None => Raise ValueError
  end.

(** [needle in hay] *)
Fixpoint contains (needle hay : string) : bool :=
  String.prefix needle hay ||
  match hay with
  | EmptyString => false
  | String _ t => contains needle t
  end.

(** Lower-casing of the ASCII letters; every other byte is kept. *)
Definition lower_ascii_char (c : ascii) : ascii :=
  let n := nat_of_ascii c in
  if ((65 <=? n) && (n <=? 90))%nat then ascii_of_nat (n + 32) else c.

Fixpoint lower_ascii (s : string) : string :=
  match s with
  | EmptyString => EmptyString
  | String c t => String (lower_ascii_char c) (lower_ascii t)
  end.

(* ================================================================== *)
(** ** Data: the SQL table and the data frame *)

(** A row of the table [vendite]. *)
Module Sql.
Record row : Type := mk {
  id : Z;
  nome_commerciale : string;
  email_commerciale : string;
  anno : Z;
  trimestre : Z;
  prodotto : string;
  area_geografica : string;
  quantita : Z;
  ricavo : float
}.
End Sql.

(** A row of the frames built by [load_data] and [filter_by_email]: the
    seven selected columns. *)
Module Df.
Record row : Type := mk {
  nome_commerciale : string;
  anno : Z;
  trimestre : Z;
  prodotto : string;
  area_geografica : string;
  quantita : Z;
  ricavo : float
}.
End Df.

Definition DataFrame : Type := list Df.row.

(** [df.empty] *)
Definition empty (df : DataFrame) : bool :=
  match df with
  | [] => true
  | _ :: _ => false
  end.

(* ================================================================== *)
(** ** query_data *)

(** Truth value of an optional string argument: [None] and [""] are false. *)
Definition truthy (v : option string) : bool :=
  match v with
  | None => false
  | Some s => negb (s =? "")%string
  end.

(** [v != lit] *)
Definition ne (v : option string) (lit : string) : bool :=
  match v with
  | None => true
  | Some s => negb (s =? lit)%string
  end.

Definition the (v : option string) : string :=
  match v with
  | Some s => s
  | None => ""
  end.

(** Element-wise [&] of two boolean series over the same range index. *)
Definition series_and (a b : list bool) : list bool :=
  map (fun p => fst p && snd p) (combine a b).

(** [df[query]] for a boolean series [query]. *)
Fixpoint select (df : DataFrame) (query : list bool) : DataFrame :=
  match df, query with
  | r :: df', b :: query' =>
      if b then r :: select df' query' else select df' query'
  | _, _ => []
  end.

Definition query_data (df : DataFrame)
    (anno trimestre prodotto area : option string) : result DataFrame :=
  let query := repeat true (List.length df) in
  query <- (if truthy anno && ne anno "Tutti"
            then y <- int (the anno) ;;
                 Ok (series_and query (map (fun r => Df.anno r =? y) df))
            else Ok query) ;;
  query <- (if truthy trimestre && ne trimestre "Tutti"
            then q <- int (the trimestre) ;;
                 Ok (series_and query (map (fun r => Df.trimestre r =? q) df))
            else Ok query) ;;
  let query :=
    if truthy prodotto && ne prodotto "Tutti"
    then series_and query
           (map (fun r => (Df.prodotto r =? the prodotto)%string) df)
    else query in
  let query :=
    if truthy area && ne area "Tutte"
    then series_and query
           (map (fun r => (Df.area_geografica r =? the area)%string) df)
    else query in
  Ok (select df query).

(* ================================================================== *)
(** ** The database behind the connection *)

(** What the next SELECT can meet.  On a [sqlite3] connection
    [pd.read_sql_query] runs [cursor.execute] inside a handler
    ([SQLiteDatabase.execute], pandas/io/sql.py) that re-raises whatever it
    catches as [pandas.errors.DatabaseError]; the rows are fetched
    afterwards, outside that handler, so an error of the driver met while
    fetching reaches the caller as the [sqlite3.Error] it is. *)
Inductive read_fault : Type :=
| fails_in_execute   (* the statement cannot be run: table missing, file locked *)
| fails_in_fetch.    (* the driver fails while stepping through the rows *)

Record Conn : Type := mkConn {
  vendite : list Sql.row;      (* rows of the table, in rowid order *)
  fault : option read_fault
}.

(** A fresh database file after [create_table]. *)
Definition fresh : Conn := {| vendite := []; fault := None |}.


(** The rowid given to the next row: one more than the largest in use. *)
Definition next_id (t : list Sql.row) : Z :=
  1 + fold_right (fun r m => Z.max (Sql.id r) m) 0 t.

(** The parameter tuple of the INSERT, in column order.  A cell read from
    the CSV is [None] when it is missing there (pandas reads it as NaN and
    the driver binds NaN as NULL). *)
Definition Data : Type :=
  (option string * option string * option Z * option Z *
   option string * option string * option Z * option float)%type.

(** [cur.execute(sql, data); conn.commit(); return cur.lastrowid].  Every
    column is declared NOT NULL. *)
Definition insert_data (conn : Conn) (data : Data) : result (Conn * Z) :=
  match data with
  | (Some nome, Some email, Some anno, Some trimestre,
     Some prodotto, Some area, Some quantita, Some ricavo) =>
      let i := next_id (vendite conn) in
      Ok ({| vendite := vendite conn ++
                        [Sql.mk i nome email anno trimestre
                                prodotto area quantita ricavo];
             fault := fault conn |}, i)
  | _ => Raise sqlite3_IntegrityError
  end.

(** The select list shared by both queries. *)
Definition selected (r : Sql.row) : Df.row :=
  Df.mk (Sql.nome_commerciale r) (Sql.anno r) (Sql.trimestre r)
        (Sql.prodotto r) (Sql.area_geografica r)
        (Sql.quantita r) (Sql.ricavo r).

(** [pd.read_sql_query] on the SELECT with the given WHERE clause. *)
Definition read_sql_query (conn : Conn) (where_ : Sql.row -> bool)
  : result DataFrame :=
  match fault conn with
  | Some fails_in_execute => Raise pandas_DatabaseError
  | Some fails_in_fetch => Raise sqlite3_OperationalError
  | None => Ok (map selected (filter where_ (vendite conn)))
  end.

(** [try: ... except sqlite3.Error as e: print(e); return pd.DataFrame()] *)
Definition except_sqlite3_Error (body : result DataFrame) : result DataFrame :=
  match body with
  | Ok df => Ok df
  | Raise e => if isinstance_sqlite3_Error e then Ok [] else Raise e
  end.

Definition load_data (conn : Conn) : result DataFrame :=
  except_sqlite3_Error (read_sql_query conn (fun _ => true)).

Definition filter_by_email (conn : Conn) (email : string) : result DataFrame :=
  except_sqlite3_Error
    (read_sql_query conn
       (fun r => (Sql.email_commerciale r =? email)%string)).

(* ================================================================== *)
(** ** main: loading the CSV into the table *)

(** A row of [sales_data.csv], by column. *)
Record CsvRow : Type := mkCsv {
  Nome_Commerciale : option string;
  Email_Commerciale : option string;
  Anno : option Z;
  Trimestre : option Z;
  Prodotto : option string;
  Area_Geografica : option string;
  Quantita : option Z;
  Ricavo : option float
}.

Definition data_of (row : CsvRow) : Data :=
  (Nome_Commerciale row, Email_Commerciale row, Anno row, Trimestre row,
   Prodotto row, Area_Geografica row, Quantita row, Ricavo row).

(** The [for] loop of [main]: one [insert_data] per row, in file order.  An
    exception leaves the loop; the rows committed before it stay. *)
Fixpoint insert_rows (conn : Conn) (rows : list CsvRow) : Conn * result unit :=
  match rows with
  | [] => (conn, Ok tt)
  | row :: rest =>
      match insert_data conn (data_of row) with
      | Ok (conn', _) => insert_rows conn' rest
      | Raise e => (conn, Raise e)
      end
  end.

(** What [main] shows after the loading block. *)
Inductive banner : Type :=
| st_success   (* "Dati caricati dal CSV nel database."; main goes on *)
| st_error (e : exn).   (* "Errore durante il caricamento ..."; main returns *)

(** [try: for ...: insert_data(...) ; st.success(...)
     except Exception as e: st.error(...); return] *)
Definition main_load (conn : Conn) (df_from_csv : list CsvRow) : Conn * banner :=
  match insert_rows conn df_from_csv with
  | (conn', Ok _) => (conn', st_success)
  | (conn', Raise e) => (conn', st_error e)
  end.



(* ================================================================== *)
(** ** Grouping and summing *)

(** Order of the group labels ([int64] or [str]). *)
Class KeyOrd (K : Type) : Type := { kcmp : K -> K -> comparison }.

#[export] Instance KeyOrd_Z : KeyOrd Z := {| kcmp := Z.compare |}.
#[export] Instance KeyOrd_string : KeyOrd string := {| kcmp := String.compare |}.

(** Addition of a measure column. *)
Class Measure (M : Type) : Type := { mzero : M; madd : M -> M -> M }.

(** [int64] arithmetic wraps around. *)
Definition wrap64 (z : Z) : Z := (z + 2 ^ 63) mod 2 ^ 64 - 2 ^ 63.
Definition add64 (a b : Z) : Z := wrap64 (a + b).

#[export] Instance Measure_int64 : Measure Z := {| mzero := 0; madd := add64 |}.

(** [float64] sums are taken left to right in binary64 arithmetic.  The
    libraries sum long columns pairwise and accumulate grouped sums with a
    compensation term, which can change the last place of a result; the
    frames evaluated below are too short, and their sums too plain, for
    that to show. *)
#[export] Instance Measure_float64 : Measure float :=
  {| mzero := 0%float; madd := PrimFloat.add |}.

(** [column.sum()] *)
Definition msum {M : Type} `{Measure M} (l : list M) : M :=
  fold_left madd l mzero.

(** Adds [m] to the group labelled [k], opening the group when it is new;
    the groups are kept in ascending label order. *)
Fixpoint upsert {K M : Type} `{KeyOrd K} `{Measure M}
    (k : K) (m : M) (acc : list (K * M)) : list (K * M) :=
  match acc with
  | [] => [(k, madd mzero m)]
  | (k', s) :: rest =>
      match kcmp k k' with
      | Lt => (k, madd mzero m) :: acc
      | Eq => (k', madd s m) :: rest
      | Gt => (k', s) :: upsert k m rest
      end
  end.

(** [df.groupby(key)[measure].sum().items()] *)
Definition groupby_sum {K M : Type} `{KeyOrd K} `{Measure M}
    (key : Df.row -> K) (measure : Df.row -> M) (df : DataFrame)
  : list (K * M) :=
  fold_left (fun acc r => upsert (key r) (measure r) acc) df [].

(** The sum of the group labelled [k], if there is such a group. *)
Fixpoint group_of {K M : Type} `{KeyOrd K} (k : K) (groups : list (K * M))
  : option M :=
  match groups with
  | [] => None
  | (k', s) :: rest =>
      match kcmp k k' with
      | Eq => Some s
      | _ => group_of k rest
      end
  end.

(** The rows of [df] whose label is [k]. *)
Definition members {K : Type} `{KeyOrd K}
    (key : Df.row -> K) (k : K) (df : DataFrame) : DataFrame :=
  filter (fun r => match kcmp (key r) k with Eq => true | _ => false end) df.

(* ================================================================== *)
(** ** Formatting *)

Definition nl : string := String (ascii_of_nat 10) EmptyString.

(** [str(n)] of an integer *)
Definition str (n : Z) : string := NilZero.string_of_int (Z.to_int n).

Definition two_digits (n : Z) : string :=
  String (ascii_of_nat (Z.to_nat (48 + n / 10)))
    (String (ascii_of_nat (Z.to_nat (48 + n mod 10))) EmptyString).

(** The nearest integer to [num / 2^k], ties to even. *)
Definition round_half_even (num : Z) (k : Z) : Z :=
  let den := 2 ^ k in
  let q := num / den in
  let r := num mod den in
  if (den <? 2 * r) || ((den =? 2 * r) && Z.odd q) then q + 1 else q.

(** [format(x, ".2f")]: the decimal expansion of the exact binary value,
    correctly rounded to two places. *)
Definition format_2f (x : float) : string :=
  match Prim2SF x with
  | S754_nan => "nan"
  | S754_infinity s => if s then "-inf" else "inf"
  | S754_zero s => if s then "-0.00" else "0.00"
  | S754_finite s m e =>
      let cents :=
        if 0 <=? e then Zpos m * 100 * 2 ^ e
        else round_half_even (Zpos m * 100) (- e) in
      (if s then "-" else "") ++ str (cents / 100) ++ "." ++
      two_digits (cents mod 100)
  end.

(* ================================================================== *)
(** ** get_agent_response *)

Definition NO_DATA : string :=
  "Non ci sono dati di vendita disponibili per la tua email.".

Definition FALLBACK : string :=
  "Non ho capito la domanda. Puoi chiedere informazioni sulle tue vendite per anno, trimestre, prodotto, area, ricavo totale o quantità totale.".

Section Responder.

(** [str.lower], taken as given: the full Unicode case mapping is the
    interpreter's. *)
Variable lower : string -> string.

Definition get_agent_response (df : DataFrame) (domanda : string) : string :=
  let domanda_lower := lower domanda in
  if empty df then
    NO_DATA
  else if contains "vendite" domanda_lower && contains "anno" domanda_lower then
    let vendite_per_anno := groupby_sum Df.anno Df.ricavo df in
    "Le tue vendite per anno:" ++ nl ++
    String.concat nl
      (map (fun '(anno, ricavo) => str anno ++ ": €" ++ format_2f ricavo)
           vendite_per_anno)
  else if contains "vendite" domanda_lower
          && contains "trimestre" domanda_lower then
    let vendite_per_trimestre := groupby_sum Df.trimestre Df.ricavo df in
    "Le tue vendite per trimestre:" ++ nl ++
    String.concat nl
      (map (fun '(trim, ricavo) =>
              "Trimestre " ++ str trim ++ ": €" ++ format_2f ricavo)
           vendite_per_trimestre)
  else if contains "vendite" domanda_lower
          && (contains "prodotto" domanda_lower
              || contains "articolo" domanda_lower) then
    let vendite_per_prodotto := groupby_sum Df.prodotto Df.ricavo df in
    "Le tue vendite per prodotto:" ++ nl ++
    String.concat nl
      (map (fun '(prodotto, ricavo) => prodotto ++ ": €" ++ format_2f ricavo)
           vendite_per_prodotto)
  else if contains "vendite" domanda_lower
          && (contains "area" domanda_lower
              || contains "geografica" domanda_lower
              || contains "regione" domanda_lower) then
    let vendite_per_area := groupby_sum Df.area_geografica Df.ricavo df in
    "Le tue vendite per area geografica:" ++ nl ++
    String.concat nl
      (map (fun '(area, ricavo) => area ++ ": €" ++ format_2f ricavo)
           vendite_per_area)
  else if (contains "ricavo" domanda_lower && contains "totale" domanda_lower)
          || contains "totale ricavo" domanda_lower then
    let ricavo_totale := msum (map Df.ricavo df) in
    "Il tuo ricavo totale è di €" ++ format_2f ricavo_totale ++ "."
  else if (contains "quantità" domanda_lower
           && contains "totale" domanda_lower)
          || contains "totale quantità" domanda_lower then
    let quantita_totale := msum (map Df.quantita df) in
    "La tua quantità totale venduta è di " ++ str quantita_totale ++ "."
  else
    FALLBACK.

(** *** The responder as the specification words it

    An ordered list of keyword rules, first match wins; each rule is one
    aggregate computation whose result is written one line per group. *)

Inductive intent : Type :=
| per_year_revenue
| per_quarter_revenue
| per_product_revenue
| per_region_revenue
| total_revenue
| total_quantity.

Definition priority_order : list intent :=
  [per_year_revenue; per_quarter_revenue; per_product_revenue;
   per_region_revenue; total_revenue; total_quantity].

(** The keywords of each rule, tested on the lower-cased question. *)
Definition rule_matches (i : intent) (q : string) : bool :=
  let has w := contains w q in
  match i with
  | per_year_revenue => has "vendite" && has "anno"
  | per_quarter_revenue => has "vendite" && has "trimestre"
  | per_product_revenue => has "vendite" && (has "prodotto" || has "articolo")
  | per_region_revenue =>
      has "vendite" && (has "area" || has "geografica" || has "regione")
  | total_revenue => (has "ricavo" && has "totale") || has "totale ricavo"
  | total_quantity =>
      (has "quantità" && has "totale") || has "totale quantità"
  end.

Definition lines {K : Type} (label : K -> string) (groups : list (K * float))
  : string :=
  String.concat nl
    (map (fun g => label (fst g) ++ ": €" ++ format_2f (snd g)) groups).

Definition rule_answer (i : intent) (df : DataFrame) : string :=
  match i with
  | per_year_revenue =>
      "Le tue vendite per anno:" ++ nl ++
      lines str (groupby_sum Df.anno Df.ricavo df)
  | per_quarter_revenue =>
      "Le tue vendite per trimestre:" ++ nl ++
      lines (fun t => "Trimestre " ++ str t)
            (groupby_sum Df.trimestre Df.ricavo df)
  | per_product_revenue =>
      "Le tue vendite per prodotto:" ++ nl ++
      lines (fun p => p) (groupby_sum Df.prodotto Df.ricavo df)
  | per_region_revenue =>
      "Le tue vendite per area geografica:" ++ nl ++
      lines (fun a => a) (groupby_sum Df.area_geografica Df.ricavo df)
  | total_revenue =>
      "Il tuo ricavo totale è di €" ++
      format_2f (msum (map Df.ricavo df)) ++ "."
  | total_quantity =>
      "La tua quantità totale venduta è di " ++
      str (msum (map Df.quantita df)) ++ "."
  end.

Definition first_match (q : string) : option intent :=
  find (fun i => rule_matches i q) priority_order.

Definition respond_spec (df : DataFrame) (question : string) : string :=
  match first_match (lower question) with
  | Some i => rule_answer i df
  | None => FALLBACK
  end.

End Responder.

(* ================================================================== *)
(** ** Vocabulary of the statements *)

(** A criterion narrows the result when it is present, non-empty and not the
    sentinel of its option. *)
Definition constrains (sentinel : string) (v : option string) : bool :=
  truthy v && ne v sentinel.

(** The integer that a year or quarter criterion asks for, if it asks. *)
Definition int_criterion (v : option string) : result (option Z) :=
  if constrains "Tutti" v then y <- int (the v) ;; Ok (Some y) else Ok None.


(** The records that pass: an exact match on each constraining criterion. *)
Definition keeps (y q : option Z) (prodotto area : option string)
    (r : Df.row) : bool :=
  match y with Some y => Df.anno r =? y | None => true end &&
  match q with Some q => Df.trimestre r =? q | None => true end &&
  (if constrains "Tutti" prodotto
   then (Df.prodotto r =? the prodotto)%string else true) &&
  (if constrains "Tutte" area
   then (Df.area_geografica r =? the area)%string else true).





(** The four criteria of one call. *)
Definition Criteria : Type :=
  (option string * option string * option string * option string)%type.

Definition run (df : DataFrame) (c : Criteria) : result DataFrame :=
  let '(anno, trimestre, prodotto, area) := c in
  query_data df anno trimestre prodotto area.

(** [adds_constraint c c']: [c'] is [c] with one option that did not
    constrain replaced by a value. *)
Inductive adds_constraint : Criteria -> Criteria -> Prop :=
| add_anno : forall a t p g v,
    constrains "Tutti" a = false -> adds_constraint (a, t, p, g) (Some v, t, p, g)
| add_trimestre : forall a t p g v,
    constrains "Tutti" t = false -> adds_constraint (a, t, p, g) (a, Some v, p, g)
| add_prodotto : forall a t p g v,
    constrains "Tutti" p = false -> adds_constraint (a, t, p, g) (a, t, Some v, g)
| add_area : forall a t p g v,
    constrains "Tutte" g = false -> adds_constraint (a, t, p, g) (a, t, p, Some v).

(** Number of records a call returns. *)
Definition returned (r : result DataFrame) : nat :=
  match r with
  | Ok out => List.length out
  | Raise _ => 0%nat
  end.

Definition on_result (f : DataFrame -> DataFrame) (r : result DataFrame)
  : result DataFrame :=
  match r with
  | Ok df => Ok (f df)
  | Raise e => Raise e
  end.

(** The two records of the specification's examples. *)
Definition example_records : DataFrame :=
  [ Df.mk "Luca" 2024 1 "A" "North" 10 100%float;
    Df.mk "Luca" 2024 2 "B" "South" 5 50%float ].

(** The order of the labels is a strict total order. *)
Class KeyOrdLaws (K : Type) `{KeyOrd K} : Prop := {
  kcmp_eq : forall a b : K, kcmp a b = Eq <-> a = b;
  kcmp_antisym : forall a b : K, kcmp b a = CompOpp (kcmp a b);
  kcmp_trans : forall a b c : K, kcmp a b = Lt -> kcmp b c = Lt -> kcmp a c = Lt
}.

(** Addition that may be regrouped and reordered, with a zero that
    disappears under a further addition.  Wrap-around [int64] addition is
    such; [float64] addition is not. *)
Class MeasureLaws (M : Type) `{Measure M} : Prop := {
  madd_assoc : forall a b c : M, madd (madd a b) c = madd a (madd b c);
  madd_comm : forall a b : M, madd a b = madd b a;
  madd_zero : forall a b : M, madd (madd mzero a) b = madd a b
}.

Definition ascending {K : Type} `{KeyOrd K} (labels : list K) : Prop :=
  StronglySorted (fun a b => kcmp a b = Lt) labels.

(** The groups of [groupby_sum] partition the frame: the labels are in
    ascending order without repetition, the label of every record is one of
    them, and every label is the label of some record. *)
Definition partitioned {K M : Type} `{KeyOrd K} `{Measure M}
    (key : Df.row -> K) (measure : Df.row -> M) (df : DataFrame) : Prop :=
  let groups := groupby_sum key measure df in
  ascending (map fst groups) /\
  NoDup (map fst groups) /\
  (forall r, In r df -> In (key r) (map fst groups)) /\
  (forall k, In k (map fst groups) -> members key k df <> []).

(** The sum of each group is the sum of the measure over the records that
    carry its label. *)
Definition sums_own_members {K M : Type} `{KeyOrd K} `{Measure M}
    (key : Df.row -> K) (measure : Df.row -> M) (df : DataFrame) : Prop :=
  forall k s,
    In (k, s) (groupby_sum key measure df) ->
    s = msum (map measure (members key k df)).

(** What holds of grouping by one column: a partition for both measures,
    and for the quantity the sums themselves. *)
Definition aggregate_ok {K : Type} `{KeyOrd K} (key : Df.row -> K)
    (df : DataFrame) : Prop :=
  partitioned key Df.ricavo df /\
  partitioned key Df.quantita df /\
  sums_own_members key Df.quantita df /\
  msum (map snd (groupby_sum key Df.quantita df)) = msum (map Df.quantita df) /\
  groupby_sum key Df.ricavo [] = [] /\
  groupby_sum key Df.quantita [] = [].

(** Three sales whose revenues do not add up exactly in [float64]. *)
Definition large_and_small : DataFrame :=
  [ Df.mk "Luca" 2023 1 "A" "North" 1 1e16%float;
    Df.mk "Luca" 2024 1 "A" "North" 1 1%float;
    Df.mk "Luca" 2024 2 "A" "North" 1 1%float ].

(** Two rows of a CSV file carrying the specification's two records, and a
    third one whose product cell is missing. *)
Definition csv_a : CsvRow :=
  mkCsv (Some "Luca") (Some "luca@example.com") (Some 2024) (Some 1)
        (Some "A") (Some "North") (Some 10) (Some 100%float).

Definition csv_b : CsvRow :=
  mkCsv (Some "Luca") (Some "luca@example.com") (Some 2024) (Some 2)
        (Some "B") (Some "South") (Some 5) (Some 50%float).

Definition csv_no_product : CsvRow :=
  mkCsv (Some "Luca") (Some "luca@example.com") (Some 2024) (Some 3)
        None (Some "South") (Some 1) (Some 7%float).



(* ================================================================== *)
(** ** main: the side bar, the page and the end of the run *)

(** [sorted(column.unique())]: the distinct values in ascending order. *)
Fixpoint insert_label {K : Type} `{KeyOrd K} (k : K) (l : list K) : list K :=
  match l with
  | [] => [k]
  | k' :: rest =>
      match kcmp k k' with
      | Lt => k :: l
      | Eq => l
      | Gt => k' :: insert_label k rest
      end
  end.

Definition sorted_unique {K : Type} `{KeyOrd K} (l : list K) : list K :=
  fold_left (fun acc k => insert_label k acc) l [].

(** The choices of the four select boxes after their first entry, the
    sentinel. *)
Definition anni_disponibili_str (df : DataFrame) : list string :=
  map str (sorted_unique (map Df.anno df)).

Definition trimestri_disponibili_str (df : DataFrame) : list string :=
  map str (sorted_unique (map Df.trimestre df)).

Definition prodotti_disponibili (df : DataFrame) : list string :=
  sorted_unique (map Df.prodotto df).

Definition aree_disponibili (df : DataFrame) : list string :=
  sorted_unique (map Df.area_geografica df).

(** [selected if selected != sentinel else None] *)
Definition unless (sentinel selected : string) : option string :=
  if (selected =? sentinel)%string then None else Some selected.

(** [.agg({'ricavo': 'sum', 'quantita': 'sum'})]: both columns are summed
    group by group. *)
#[export] Instance Measure_pair {A B : Type} `{Measure A} `{Measure B}
  : Measure (A * B) :=
  {| mzero := (mzero, mzero);
     madd := fun x y => (madd (fst x) (fst y), madd (snd x) (snd y)) |}.

Definition groupby_agg {K : Type} `{KeyOrd K} (key : Df.row -> K)
    (df : DataFrame) : list (K * (float * Z)) :=
  groupby_sum key (fun r => (Df.ricavo r, Df.quantita r)) df.

(** What the user has typed and picked when the script runs. *)
Record Inputs : Type := mkInputs {
  email_commerciale : string;
  anno_selezionato : string;
  trimestre_selezionato : string;
  prodotto_selezionato : string;
  area_selezionata : string;
  per_anno : bool;
  per_trimestre : bool;
  per_prodotto : bool;
  per_area : bool;
  domanda_agente : string
}.

(** What the script puts on the page, call by call; the input widgets are
    not listed. *)
Inductive element : Type :=
| title                 (* st.title("Dashboard Interattiva Vendite") *)
| error_no_connection   (* st.error("Impossibile connettersi al database.") *)
| loading (b : banner)  (* st.success(...) or st.error(...) of the loading block *)
| sidebar_header        (* st.sidebar.header("Filtri Query") *)
| warning_unknown_email (* st.warning("Email non riconosciuta nel database.") *)
| subheader (s : string)
| dataframe (df : DataFrame)
| write (s : string)
| details_by_int (t : list (Z * (float * Z)))
| details_by_str (t : list (string * (float * Z)))
| info_no_results.      (* st.info("Nessun risultato trovato con i filtri selezionati.") *)

(** The state a run ends in. *)
Record Run : Type := mkRun {
  shown : list element;
  db : option Conn;
  closed : bool       (* [conn.close()] was reached *)
}.

(** The selections are among the choices offered for the frame. *)
Definition offered (df : DataFrame) (i : Inputs) : Prop :=
  In (anno_selezionato i) ("Tutti" :: anni_disponibili_str df) /\
  In (trimestre_selezionato i) ("Tutti" :: trimestri_disponibili_str df) /\
  In (prodotto_selezionato i) ("Tutti" :: prodotti_disponibili df) /\
  In (area_selezionata i) ("Tutte" :: aree_disponibili df).

(** The call of [query_data] in [main]. *)
Definition risultati_query (df_commerciale : DataFrame) (i : Inputs)
  : result DataFrame :=
  query_data df_commerciale
    (unless "Tutti" (anno_selezionato i))
    (unless "Tutti" (trimestre_selezionato i))
    (unless "Tutti" (prodotto_selezionato i))
    (unless "Tutte" (area_selezionata i)).

(** The left column: the result, its totals and the tables that are
    ticked. *)
Definition col_main (risultati : DataFrame) (i : Inputs) : list element :=
  subheader "Risultati della Query:" ::
  if empty risultati then [info_no_results]
  else
    [dataframe risultati;
     subheader "Statistiche Aggregate:";
     write ("Ricavo Totale: €" ++ format_2f (msum (map Df.ricavo risultati)));
     write ("Quantità Totale Venduta: " ++ str (msum (map Df.quantita risultati)))]
    ++ (if per_anno i then [details_by_int (groupby_agg Df.anno risultati)] else [])
    ++ (if per_trimestre i
        then [details_by_int (groupby_agg Df.trimestre risultati)] else [])
    ++ (if per_prodotto i
        then [details_by_str (groupby_agg Df.prodotto risultati)] else [])
    ++ (if per_area i
        then [details_by_str (groupby_agg Df.area_geografica risultati)] else []).

Section Main.

Variable lower : string -> string.

(** The right column: the question and its answer. *)
Definition col_agent (risultati : DataFrame) (i : Inputs) : list element :=
  subheader "Domanda all'Agente:" ::
  if (domanda_agente i =? "")%string then []
  else [write "Risposta dell'Agente:";
        write (get_agent_response lower risultati (domanda_agente i))].

(** [main], from the connection that [create_connection] returned ([None]
    when it failed) and the rows that [pd.read_csv] read.  The table is
    taken as [create_table] left it.  An exception that no handler of
    [main] catches ends the run. *)
Definition main (connection : option Conn) (df_from_csv : list CsvRow)
    (i : Inputs) : result Run :=
  match connection with
  | None =>
      Ok {| shown := [title; error_no_connection]; db := None; closed := false |}
  | Some conn =>
      match main_load conn df_from_csv with
      | (conn, st_error e) =>
          Ok {| shown := [title; loading (st_error e)];
                db := Some conn; closed := false |}
      | (conn, st_success) =>
          let top := [title; loading st_success] in
          if (email_commerciale i =? "")%string then
            Ok {| shown := top; db := Some conn; closed := true |}
          else
            df_commerciale <- filter_by_email conn (email_commerciale i) ;;
            if empty df_commerciale then
              Ok {| shown := top ++ [warning_unknown_email];
                    db := Some conn; closed := true |}
            else
              risultati <- risultati_query df_commerciale i ;;
              Ok {| shown := top ++ [sidebar_header]
                             ++ col_main risultati i ++ col_agent risultati i;
                    db := Some conn; closed := true |}
      end
  end.

End Main.

(** The characters of a decimal numeral. *)
Definition chars (u : Decimal.uint) : list ascii :=
  list_ascii_of_string (NilEmpty.string_of_uint u).

(** Luca picks the year, quarter, product and region of his first record. *)
Definition luca_picks_first : Inputs :=
  mkInputs "luca@example.com" "2024" "1" "A" "North"
           false false false false "".

(** Sum of integers without wrap-around. *)
Definition Zsum (l : list Z) : Z := fold_right Z.add 0 l.

(** A database in which two salespersons have a record each. *)
Definition shared : Conn :=
  {| vendite :=
       [Sql.mk 1 "Luca" "luca@example.com" 2024 1 "A" "North" 10 100%float;
        Sql.mk 2 "Anna" "anna@example.com" 2023 4 "B" "South" 5 50%float];
     fault := None |}.


(** The same file when the SELECT cannot be executed. *)
Definition shared_unexecutable : Conn :=
  {| vendite := vendite shared; fault := Some fails_in_execute |}.

(** The select boxes as they first appear. *)
Definition nothing_picked : Inputs :=
  mkInputs "luca@example.com" "Tutti" "Tutti" "Tutti" "Tutte"
           false false false false "".

(** Luca asks for his sales by year, nothing narrowed. *)
Definition luca_asks : Inputs :=
  mkInputs "luca@example.com" "Tutti" "Tutti" "Tutti" "Tutte"
           false false false false "vendite per anno".

(** Luca picks a quarter and a product that no record of his shares. *)
Definition luca_excludes_all : Inputs :=
  mkInputs "luca@example.com" "Tutti" "1" "B" "Tutte"
           true false false false "ricavo totale".

(** The CSV row that is stored as [r]. *)
Definition csv_of (r : Sql.row) : CsvRow :=
  mkCsv (Some (Sql.nome_commerciale r)) (Some (Sql.email_commerciale r))
        (Some (Sql.anno r)) (Some (Sql.trimestre r))
        (Some (Sql.prodotto r)) (Some (Sql.area_geografica r))
        (Some (Sql.quantita r)) (Some (Sql.ricavo r)).


(* ================================================================== *)
(** * Theorems *)

(** ** Boolean series and selection *)

Lemma repeat_true_map (df : DataFrame) :
  repeat true (List.length df) = map (fun _ => true) df.
Proof.
  induction df as [| r df IH]; simpl; [reflexivity | now rewrite IH].
Qed.

Lemma series_and_map (p q : Df.row -> bool) (df : DataFrame) :
  series_and (map p df) (map q df) = map (fun r => p r && q r) df.
Proof.
  unfold series_and.
  induction df as [| r df IH]; simpl; [reflexivity | now rewrite IH].
Qed.

Lemma select_map (p : Df.row -> bool) (df : DataFrame) :
  select df (map p df) = filter p df.
Proof.
  induction df as [| r df IH]; simpl; [reflexivity |].
  destruct (p r); now rewrite IH.
Qed.

(** [query_data] without the series: the integer criteria are read first,
    in argument order, then the frame is filtered once. *)
Lemma query_data_eq (df : DataFrame) (anno trimestre prodotto area : option string) :
  query_data df anno trimestre prodotto area =
  (y <- int_criterion anno ;;
   q <- int_criterion trimestre ;;
   Ok (filter (keeps y q prodotto area) df)).
Proof.
  unfold query_data, int_criterion, keeps.
  rewrite repeat_true_map.
  fold (constrains "Tutti" anno) (constrains "Tutti" trimestre)
       (constrains "Tutti" prodotto) (constrains "Tutte" area).
  destruct (constrains "Tutti" anno); unfold int;
    [destruct (py_int (the anno)) as [y |]; simpl; [| reflexivity] |];
    (destruct (constrains "Tutti" trimestre);
     [destruct (py_int (the trimestre)) as [q |]; simpl; [| reflexivity] |]);
    simpl;
    destruct (constrains "Tutti" prodotto), (constrains "Tutte" area);
    rewrite ?series_and_map, select_map; f_equal;
    apply filter_ext; intro r;
    rewrite ?andb_true_r, ?andb_true_l; reflexivity.
Qed.


Lemma int_criterion_idle (v : option string) :
  constrains "Tutti" v = false -> int_criterion v = Ok None.
Proof. unfold int_criterion; now intros ->. Qed.

Lemma filter_narrower (p q : Df.row -> bool) (df : DataFrame) :
  (forall r, p r = true -> q r = true) ->
  (List.length (filter p df) <= List.length (filter q df))%nat /\
  incl (filter p df) (filter q df).
Proof.
  intros Hpq; split.
  - induction df as [| r df IH]; simpl; [lia |].
    destruct (p r) eqn:Hp.
    + rewrite (Hpq r Hp); simpl; lia.
    + destruct (q r); simpl; lia.
  - intros r Hr. apply filter_In in Hr as [Hin Hp].
    apply filter_In; split; [assumption | now apply Hpq].
Qed.

Lemma filter_twice (p q : Df.row -> bool) (df : DataFrame) :
  filter q (filter p df) = filter (fun r => p r && q r) df.
Proof.
  induction df as [| r df IH]; simpl; [reflexivity |].
  destruct (p r); simpl; [destruct (q r) |]; now rewrite IH.
Qed.

(** ** The query engine *)


(** The filters of the specification's examples. *)
Example query_data_year_2024 :
  query_data example_records (Some "2024") None None None = Ok example_records.
Proof. reflexivity. Qed.

Example query_data_region_East :
  query_data example_records None None None (Some "East") = Ok [].
Proof. reflexivity. Qed.




Lemma keeps_drop_anno (y q : option Z) (p g : option string) (r : Df.row) :
  keeps y q p g r = true -> keeps None q p g r = true.
Proof.
  unfold keeps. rewrite !andb_true_iff. intuition.
Qed.

Lemma keeps_drop_trimestre (y q : option Z) (p g : option string) (r : Df.row) :
  keeps y q p g r = true -> keeps y None p g r = true.
Proof.
  unfold keeps. rewrite !andb_true_iff. intuition.
Qed.

Lemma keeps_drop_prodotto (y q : option Z) (p p' g : option string) (r : Df.row) :
  constrains "Tutti" p = false ->
  keeps y q p' g r = true -> keeps y q p g r = true.
Proof.
  unfold keeps. intros ->. rewrite !andb_true_iff. intuition.
Qed.

Lemma keeps_drop_area (y q : option Z) (p g g' : option string) (r : Df.row) :
  constrains "Tutte" g = false ->
  keeps y q p g' r = true -> keeps y q p g r = true.
Proof.
  unfold keeps. intros ->. rewrite !andb_true_iff. intuition.
Qed.

(** C7.  Replacing one option that does not constrain by a value never
    increases the number of records returned: when the narrower call
    returns, the wider call returns too and contains its result. *)
Theorem query_data_monotonic :
  forall (df : DataFrame) (c c' : Criteria),
    adds_constraint c c' ->
    (returned (run df c') <= returned (run df c))%nat /\
    (forall out', run df c' = Ok out' ->
       exists out, run df c = Ok out /\ incl out' out /\
                   (List.length out' <= List.length out)%nat).
Proof.
  intros df c c' H.
  destruct H as [a t p g v Hc | a t p g v Hc | a t p g v Hc | a t p g v Hc];
    unfold run; rewrite !query_data_eq.
  - rewrite (int_criterion_idle a Hc).
    destruct (int_criterion (Some v)) as [y |]; simpl;
      [destruct (int_criterion t) as [q |]; simpl |].
    + destruct (filter_narrower (keeps y q p g) (keeps None q p g) df
                  (keeps_drop_anno y q p g)) as [Hlen Hincl].
      split; [exact Hlen |].
      intros out' [= <-]. eexists; split; [reflexivity | now split].
    + split; [lia | discriminate].
    + split; [lia | discriminate].
  - destruct (int_criterion a) as [y |]; simpl; [| split; [lia | discriminate]].
    rewrite (int_criterion_idle t Hc).
    destruct (int_criterion (Some v)) as [q |]; simpl.
    + destruct (filter_narrower (keeps y q p g) (keeps y None p g) df
                  (keeps_drop_trimestre y q p g)) as [Hlen Hincl].
      split; [exact Hlen |].
      intros out' [= <-]. eexists; split; [reflexivity | now split].
    + split; [lia | discriminate].
  - destruct (int_criterion a) as [y |]; simpl; [| split; [lia | discriminate]].
    destruct (int_criterion t) as [q |]; simpl; [| split; [lia | discriminate]].
    destruct (filter_narrower (keeps y q (Some v) g) (keeps y q p g) df
                (fun r => keeps_drop_prodotto y q p (Some v) g r Hc)) as [Hlen Hincl].
    split; [exact Hlen |].
    intros out' [= <-]. eexists; split; [reflexivity | now split].
  - destruct (int_criterion a) as [y |]; simpl; [| split; [lia | discriminate]].
    destruct (int_criterion t) as [q |]; simpl; [| split; [lia | discriminate]].
    destruct (filter_narrower (keeps y q p (Some v)) (keeps y q p g) df
                (fun r => keeps_drop_area y q p g (Some v) r Hc)) as [Hlen Hincl].
    split; [exact Hlen |].
    intros out' [= <-]. eexists; split; [reflexivity | now split].
Qed.

(** C7 at the specification's two records: asking for the first quarter on
    top of no criterion at all. *)
Lemma query_data_monotonic_witness :
  (returned (run example_records (None, Some "1", None, None))
   <= returned (run example_records (None, None, None, None)))%nat /\
  (forall out',
      run example_records (None, Some "1", None, None) = Ok out' ->
      exists out,
        run example_records (None, None, None, None) = Ok out /\
        incl out' out /\ (List.length out' <= List.length out)%nat).
Proof.
  apply (query_data_monotonic example_records
           (None, None, None, None) (None, Some "1", None, None)).
  apply add_trimestre. reflexivity.
Defined.

(** C10.  "Tutti" switches the year, quarter and product constraints off,
    "Tutte" switches the region constraint off, and "Tutti" given as region
    is an ordinary value: the call keeps the records whose region is the
    string "Tutti", which on the specification's two records leaves none. *)
Theorem query_data_sentinels :
  forall (df : DataFrame) (anno trimestre prodotto area : option string),
    query_data df (Some "Tutti") trimestre prodotto area
      = query_data df None trimestre prodotto area /\
    query_data df anno (Some "Tutti") prodotto area
      = query_data df anno None prodotto area /\
    query_data df anno trimestre (Some "Tutti") area
      = query_data df anno trimestre None area /\
    query_data df anno trimestre prodotto (Some "Tutte")
      = query_data df anno trimestre prodotto None /\
    query_data df anno trimestre prodotto (Some "Tutti")
      = on_result (filter (fun r => (Df.area_geografica r =? "Tutti")%string))
          (query_data df anno trimestre prodotto None) /\
    query_data example_records None None None (Some "Tutti") = Ok [] /\
    query_data example_records None None None (Some "Tutte")
      = Ok example_records.
Proof.
  intros df anno trimestre prodotto area.
  repeat split; try reflexivity.
  rewrite !query_data_eq.
  destruct (int_criterion anno) as [y |]; simpl; [| reflexivity].
  destruct (int_criterion trimestre) as [q |]; simpl; [| reflexivity].
  rewrite filter_twice. apply f_equal, filter_ext. intro r.
  unfold keeps. simpl. now rewrite andb_true_r.
Qed.

(** ** The record store and the loader *)















(** What the handlers of the two read operations do catch: an error of the
    driver met while fetching becomes an empty frame. *)
Lemma read_failure_in_fetch_is_swallowed (rows : list Sql.row) (email : string) :
  load_data {| vendite := rows; fault := Some fails_in_fetch |} = Ok [] /\
  filter_by_email {| vendite := rows; fault := Some fails_in_fetch |} email = Ok [].
Proof. split; reflexivity. Qed.

(** C8 fails on the code.  When the SELECT cannot be executed, pandas raises
    its own [DatabaseError]; the handlers of [load_data] and
    [filter_by_email] catch [sqlite3.Error] only, so the exception leaves
    both functions instead of being turned into an empty frame. *)
Theorem read_failure_in_execute_propagates :
  forall (rows : list Sql.row) (email : string),
    load_data {| vendite := rows; fault := Some fails_in_execute |}
      = Raise pandas_DatabaseError /\
    filter_by_email {| vendite := rows; fault := Some fails_in_execute |} email
      = Raise pandas_DatabaseError.
Proof. intros rows email. split; reflexivity. Qed.

(** ** The responder *)

Lemma lines_eq {K : Type} (label : K -> string) (groups : list (K * float)) :
  String.concat nl
    (map (fun '(k, ricavo) => label k ++ ": €" ++ format_2f ricavo) groups)
  = lines label groups.
Proof.
  unfold lines. f_equal. apply map_ext. now intros [k s].
Qed.

Lemma find_after_misses {A : Type} (f : A -> bool) (l1 l2 : list A) :
  forallb (fun x => negb (f x)) l1 = true -> find f (l1 ++ l2) = find f l2.
Proof.
  induction l1 as [| x l1 IH]; simpl; [reflexivity |].
  intros H. apply andb_true_iff in H as [Hx Hrest].
  apply negb_true_iff in Hx. rewrite Hx. now apply IH.
Qed.

(** The chain of tests of [get_agent_response] on a frame with rows. *)
Lemma get_agent_response_chain
    (lower : string -> string) (r : Df.row) (df : DataFrame) (domanda : string) :
  let q := lower domanda in
  get_agent_response lower (r :: df) domanda =
  if rule_matches per_year_revenue q then rule_answer per_year_revenue (r :: df)
  else if rule_matches per_quarter_revenue q
       then rule_answer per_quarter_revenue (r :: df)
  else if rule_matches per_product_revenue q
       then rule_answer per_product_revenue (r :: df)
  else if rule_matches per_region_revenue q
       then rule_answer per_region_revenue (r :: df)
  else if rule_matches total_revenue q then rule_answer total_revenue (r :: df)
  else if rule_matches total_quantity q then rule_answer total_quantity (r :: df)
  else FALLBACK.
Proof.
  intro q. unfold get_agent_response. fold q.
  cbn [empty rule_matches rule_answer].
  rewrite <- !lines_eq.
  reflexivity.
Qed.

(** C5.  On an empty frame the answer is the fixed no-data message, whatever
    the question and whatever rule it would match. *)
Theorem respond_empty_is_no_data :
  forall (lower : string -> string) (domanda : string),
    get_agent_response lower [] domanda = NO_DATA /\
    NO_DATA = "Non ci sono dati di vendita disponibili per la tua email.".
Proof. intros lower domanda. split; reflexivity. Qed.

(** C6.  On a frame with rows the question is lower-cased and the rules are
    tried in the order year, quarter, product, region, total revenue, total
    quantity; the first rule whose keywords occur answers, and a question
    that matches none gets the fixed fallback, which names the six things
    one can ask for. *)
Theorem respond_first_match_wins :
  forall (lower : string -> string) (df : DataFrame) (domanda : string),
    df <> [] ->
    get_agent_response lower df domanda = respond_spec lower df domanda /\
    (forall i before after,
        priority_order = (before ++ i :: after)%list ->
        rule_matches i (lower domanda) = true ->
        forallb (fun j => negb (rule_matches j (lower domanda))) before = true ->
        get_agent_response lower df domanda = rule_answer i df) /\
    (forallb (fun i => negb (rule_matches i (lower domanda))) priority_order = true ->
     get_agent_response lower df domanda = FALLBACK) /\
    forallb (fun w => contains w FALLBACK)
      ["anno"; "trimestre"; "prodotto"; "area"; "ricavo totale";
       "quantità totale"] = true.
Proof.
  intros lower df domanda Hdf.
  destruct df as [| r df]; [contradiction |].
  assert (Hspec : get_agent_response lower (r :: df) domanda
                  = respond_spec lower (r :: df) domanda).
  { rewrite get_agent_response_chain.
    unfold respond_spec, first_match, priority_order. cbn [find].
    repeat match goal with
           | |- context [rule_matches ?i ?q] =>
               destruct (rule_matches i q); [reflexivity |]
           end.
    reflexivity. }
  split; [exact Hspec |].
  split; [| split; [| reflexivity]].
  - intros i before after Hsplit Hi Hbefore.
    rewrite Hspec. unfold respond_spec, first_match.
    rewrite Hsplit, (find_after_misses _ before _ Hbefore).
    simpl. now rewrite Hi.
  - intros Hnone. rewrite Hspec. unfold respond_spec, first_match.
    rewrite <- (app_nil_r priority_order), (find_after_misses _ _ _ Hnone).
    reflexivity.
Qed.

(** C6 on the specification's example: "ciao come stai" over two records. *)
Lemma respond_first_match_wins_witness :
  get_agent_response lower_ascii example_records "ciao come stai"
  = respond_spec lower_ascii example_records "ciao come stai" /\
  (forall i before after,
      priority_order = (before ++ i :: after)%list ->
      rule_matches i (lower_ascii "ciao come stai") = true ->
      forallb (fun j => negb (rule_matches j (lower_ascii "ciao come stai")))
        before = true ->
      get_agent_response lower_ascii example_records "ciao come stai"
      = rule_answer i example_records) /\
  (forallb (fun i => negb (rule_matches i (lower_ascii "ciao come stai")))
     priority_order = true ->
   get_agent_response lower_ascii example_records "ciao come stai" = FALLBACK) /\
  forallb (fun w => contains w FALLBACK)
    ["anno"; "trimestre"; "prodotto"; "area"; "ricavo totale";
     "quantità totale"] = true.
Proof.
  apply (respond_first_match_wins lower_ascii example_records "ciao come stai").
  discriminate.
Defined.

(** The answers of the specification's examples. *)
Example respond_total_revenue :
  get_agent_response lower_ascii example_records "qual è il mio ricavo totale"
  = "Il tuo ricavo totale è di €150.00.".
Proof. vm_compute. reflexivity. Qed.

Example respond_no_data :
  get_agent_response lower_ascii [] "vendite per anno" = NO_DATA.
Proof. reflexivity. Qed.

Example respond_unrecognised :
  get_agent_response lower_ascii example_records "ciao come stai" = FALLBACK.
Proof. vm_compute. reflexivity. Qed.

Example respond_year_before_quarter :
  get_agent_response lower_ascii example_records
    "Vendite per anno e per trimestre"
  = "Le tue vendite per anno:" ++ nl ++ "2024: €150.00".
Proof. vm_compute. reflexivity. Qed.

(** ** Grouping and summing *)

#[export] Instance KeyOrdLaws_Z : KeyOrdLaws Z.
Proof.
  split; simpl.
  - apply Z.compare_eq_iff.
  - intros a b. apply Z.compare_antisym.
  - intros a b c. rewrite !Z.compare_lt_iff. lia.
Qed.

#[export] Instance KeyOrdLaws_string : KeyOrdLaws string.
Proof.
  split; simpl.
  - apply String_as_OT.cmp_eq.
  - intros a b. apply String_as_OT.cmp_antisym.
  - intros a b c Hab Hbc.
    apply String_as_OT.cmp_lt.
    apply String_as_OT.cmp_lt in Hab, Hbc.
    eapply String_as_OT.lt_trans; eassumption.
Qed.

Lemma wrap64_add_l (x y : Z) : wrap64 (wrap64 x + y) = wrap64 (x + y).
Proof.
  unfold wrap64. f_equal.
  replace ((x + 2 ^ 63) mod 2 ^ 64 - 2 ^ 63 + y + 2 ^ 63)
    with ((x + 2 ^ 63) mod 2 ^ 64 + y) by lia.
  rewrite Z.add_mod_idemp_l by lia.
  f_equal. lia.
Qed.

#[export] Instance MeasureLaws_int64 : MeasureLaws Z.
Proof.
  split; simpl; unfold add64.
  - intros a b c. rewrite wrap64_add_l.
    rewrite (Z.add_comm a (wrap64 (b + c))), wrap64_add_l. f_equal. lia.
  - intros a b. f_equal. lia.
  - intros a b. now rewrite wrap64_add_l.
Qed.

Section Groups.

Context {K M : Type} `{KeyOrdLaws K} `{Measure M}.

Implicit Types (k x : K) (m s : M) (acc : list (K * M)).

Lemma kcmp_refl k : kcmp k k = Eq.
Proof. now apply kcmp_eq. Qed.

Lemma kcmp_gt_lt k x : kcmp k x = Gt -> kcmp x k = Lt.
Proof. intros Hgt. rewrite kcmp_antisym, Hgt. reflexivity. Qed.

Lemma kcmp_eq_sym k x : kcmp k x = Eq -> kcmp x k = Eq.
Proof. intros Heq. rewrite kcmp_antisym, Heq. reflexivity. Qed.

Lemma upsert_labels k m acc x :
  In x (map fst (upsert k m acc)) <-> x = k \/ In x (map fst acc).
Proof.
  induction acc as [| [k' s] rest IH]; simpl.
  - intuition.
  - destruct (kcmp k k') eqn:Hcmp; simpl.
    + apply kcmp_eq in Hcmp. subst k'. intuition.
    + intuition.
    + rewrite IH. intuition.
Qed.

Lemma upsert_ascending k m acc :
  ascending (map fst acc) -> ascending (map fst (upsert k m acc)).
Proof.
  unfold ascending.
  induction acc as [| [k' s] rest IH]; simpl; intros Hsorted.
  - constructor; constructor.
  - inversion Hsorted as [| ? ? Hrest Hall]; subst.
    destruct (kcmp k k') eqn:Hcmp; simpl.
    + now constructor.
    + constructor; [assumption |].
      constructor; [assumption |].
      eapply Forall_impl; [| exact Hall].
      intros x Hx. now apply (kcmp_trans k k' x).
    + constructor; [now apply IH |].
      apply Forall_forall. intros x Hx.
      apply upsert_labels in Hx as [-> | Hx].
      * now apply kcmp_gt_lt.
      * rewrite Forall_forall in Hall. now apply Hall.
Qed.

Lemma ascending_NoDup (labels : list K) : ascending labels -> NoDup labels.
Proof.
  unfold ascending.
  induction 1 as [| k l Hl IH Hall]; constructor; [| assumption].
  intros Hin. rewrite Forall_forall in Hall.
  specialize (Hall k Hin). rewrite kcmp_refl in Hall. discriminate.
Qed.

Lemma group_of_below k acc :
  Forall (fun x => kcmp k x = Lt) (map fst acc) -> group_of k acc = None.
Proof.
  induction acc as [| [k' s] rest IH]; simpl; intros Hall; [reflexivity |].
  inversion Hall as [| ? ? Hk Hrest]; subst.
  rewrite Hk. now apply IH.
Qed.

Lemma group_of_In k s acc :
  ascending (map fst acc) -> In (k, s) acc -> group_of k acc = Some s.
Proof.
  unfold ascending.
  induction acc as [| [k' s'] rest IH]; simpl; intros Hsorted Hin;
    [contradiction |].
  inversion Hsorted as [| ? ? Hrest Hall]; subst.
  destruct Hin as [Heq | Hin].
  - injection Heq as -> ->. now rewrite kcmp_refl.
  - rewrite Forall_forall in Hall.
    assert (Hlt : kcmp k' k = Lt)
      by (apply Hall; change k with (fst (k, s)); now apply in_map).
    rewrite kcmp_antisym, Hlt. simpl. now apply IH.
Qed.

Lemma group_of_Some k s acc : group_of k acc = Some s -> In (k, s) acc.
Proof.
  induction acc as [| [k' s'] rest IH]; simpl; [discriminate |].
  destruct (kcmp k k') eqn:Hcmp; intros Hs.
  - apply kcmp_eq in Hcmp. subst k'. injection Hs as ->. now left.
  - right. now apply IH.
  - right. now apply IH.
Qed.

(** One record goes to one group: [upsert] changes the sum labelled [k]
    and no other. *)
Lemma group_of_upsert k m acc x :
  ascending (map fst acc) ->
  group_of x (upsert k m acc) =
  match kcmp x k with
  | Eq => Some (madd (match group_of k acc with
                      | Some s => s
                      | None => mzero
                      end) m)
  | _ => group_of x acc
  end.
Proof.
  unfold ascending.
  induction acc as [| [k' s] rest IH]; simpl; intros Hsorted.
  - destruct (kcmp x k); reflexivity.
  - inversion Hsorted as [| ? ? Hrest Hall]; subst.
    destruct (kcmp k k') eqn:Hcmp; simpl.
    + apply kcmp_eq in Hcmp. subst k'.
      destruct (kcmp x k); reflexivity.
    + destruct (kcmp x k) eqn:Hx; try reflexivity.
      rewrite group_of_below; [reflexivity |].
      eapply Forall_impl; [| exact Hall].
      intros y Hy. now apply (kcmp_trans k k' y).
    + rewrite (IH Hrest).
      destruct (kcmp x k') eqn:Hx'; try reflexivity.
      apply kcmp_eq in Hx'. subst k'.
      rewrite (kcmp_gt_lt _ _ Hcmp). reflexivity.
Qed.

Variable key : Df.row -> K.
Variable measure : Df.row -> M.

Lemma groupby_sum_snoc (df : DataFrame) (r : Df.row) :
  groupby_sum key measure (df ++ [r])%list
  = upsert (key r) (measure r) (groupby_sum key measure df).
Proof. unfold groupby_sum. now rewrite fold_left_app. Qed.

Lemma groupby_sum_ascending (df : DataFrame) :
  ascending (map fst (groupby_sum key measure df)).
Proof.
  induction df as [| r df IH] using rev_ind.
  - constructor.
  - rewrite groupby_sum_snoc. now apply upsert_ascending.
Qed.

Lemma groupby_sum_labels (df : DataFrame) (x : K) :
  In x (map fst (groupby_sum key measure df)) <-> exists r, In r df /\ key r = x.
Proof.
  induction df as [| r df IH] using rev_ind.
  - simpl. split; [contradiction | now intros [r [[] _]]].
  - rewrite groupby_sum_snoc, upsert_labels, IH. split.
    + intros [-> | [r' [Hin Hk]]].
      * exists r. split; [apply in_or_app; right; now left | reflexivity].
      * exists r'. split; [apply in_or_app; now left | assumption].
    + intros [r' [Hin Hk]]. apply in_app_or in Hin as [Hin | [-> | []]].
      * right. now exists r'.
      * now left.
Qed.

Lemma msum_snoc (l : list M) (m : M) : msum (l ++ [m])%list = madd (msum l) m.
Proof. unfold msum. now rewrite fold_left_app. Qed.

Lemma members_snoc (k : K) (df : DataFrame) (r : Df.row) :
  members key k (df ++ [r])%list =
  (members key k df ++
   match kcmp (key r) k with Eq => [r] | _ => [] end)%list.
Proof.
  unfold members. rewrite filter_app. simpl.
  now destruct (kcmp (key r) k).
Qed.

(** The sum of each group is the sum over its members, in input order. *)
Lemma group_of_groupby_sum (df : DataFrame) (k : K) :
  group_of k (groupby_sum key measure df) =
  match members key k df with
  | [] => None
  | _ :: _ => Some (msum (map measure (members key k df)))
  end.
Proof.
  induction df as [| r df IH] using rev_ind; [reflexivity |].
  rewrite groupby_sum_snoc, group_of_upsert by apply groupby_sum_ascending.
  rewrite members_snoc.
  destruct (kcmp k (key r)) eqn:Hk.
  - apply kcmp_eq in Hk. subst k. rewrite kcmp_refl, IH.
    rewrite map_app. cbn [map]. rewrite msum_snoc.
    destruct (members key (key r) df) as [| r0 l]; reflexivity.
  - rewrite (kcmp_antisym k (key r)), Hk. cbn [CompOpp].
    rewrite app_nil_r. exact IH.
  - rewrite (kcmp_antisym k (key r)), Hk. cbn [CompOpp].
    rewrite app_nil_r. exact IH.
Qed.

Lemma groupby_sum_partitioned (df : DataFrame) : partitioned key measure df.
Proof.
  unfold partitioned.
  pose proof (groupby_sum_ascending df) as Hasc.
  split; [exact Hasc |].
  split; [now apply ascending_NoDup |].
  split.
  - intros r Hr. apply groupby_sum_labels. now exists r.
  - intros k Hk Hnone.
    apply groupby_sum_labels in Hk as [r [Hr Hkey]].
    assert (Hin : In r (members key k df)).
    { unfold members. apply filter_In. split; [exact Hr |].
      subst k. now rewrite kcmp_refl. }
    rewrite Hnone in Hin. contradiction.
Qed.

Lemma groupby_sum_sums_own_members (df : DataFrame) :
  sums_own_members key measure df.
Proof.
  intros k s Hin.
  apply (group_of_In k s _ (groupby_sum_ascending df)) in Hin.
  rewrite group_of_groupby_sum in Hin.
  destruct (members key k df) as [| r0 l]; [discriminate | now injection Hin].
Qed.

End Groups.

Section Totals.

Context {K M : Type} `{KeyOrdLaws K} `{MeasureLaws M}.

Lemma fold_madd_out (l : list M) (x y : M) :
  fold_left madd l (madd x y) = madd (fold_left madd l x) y.
Proof.
  revert x. induction l as [| a l IH]; intros x; simpl; [reflexivity |].
  rewrite <- IH. f_equal.
  rewrite !madd_assoc. f_equal. apply madd_comm.
Qed.

Lemma madd_zero_r (x m : M) : madd x (madd mzero m) = madd x m.
Proof.
  rewrite (madd_comm x), madd_zero. apply madd_comm.
Qed.

(** Adding a record to its group adds its measure to the grand total. *)
Lemma total_upsert (k : K) (m : M) (acc : list (K * M)) :
  forall x : M,
    fold_left madd (map snd (upsert k m acc)) x
    = madd (fold_left madd (map snd acc) x) m.
Proof.
  induction acc as [| [k' s] rest IH]; intros x; simpl.
  - apply madd_zero_r.
  - destruct (kcmp k k'); simpl.
    + rewrite <- madd_assoc. apply fold_madd_out.
    + rewrite madd_zero_r. rewrite <- fold_madd_out.
      f_equal. rewrite !madd_assoc. f_equal. apply madd_comm.
    + apply IH.
Qed.

Lemma groupby_sum_total (key : Df.row -> K) (measure : Df.row -> M)
    (df : DataFrame) :
  msum (map snd (groupby_sum key measure df)) = msum (map measure df).
Proof.
  induction df as [| r df IH] using rev_ind; [reflexivity |].
  rewrite groupby_sum_snoc, map_app. cbn [map]. rewrite msum_snoc, <- IH.
  unfold msum. apply total_upsert.
Qed.

End Totals.

Lemma groupby_sum_aggregate_ok {K : Type} `{KeyOrdLaws K}
    (key : Df.row -> K) (df : DataFrame) :
  aggregate_ok key df.
Proof.
  unfold aggregate_ok.
  split; [apply groupby_sum_partitioned |].
  split; [apply groupby_sum_partitioned |].
  split; [apply groupby_sum_sums_own_members |].
  split; [apply groupby_sum_total |].
  split; reflexivity.
Qed.

(** C4 (as amended).  Grouping by year, quarter, product or region
    partitions the frame for either measure: the labels come in ascending
    order, none is repeated, every record carries the label of exactly one
    group and every group has a record; an empty frame gives no group.  For
    the quantity, whose [int64] addition wraps around, the sum of a group is
    the sum over its own records and the sums of the groups add up to the
    sum over the whole frame. *)
Theorem aggregate_is_partition :
  forall df : DataFrame,
    aggregate_ok Df.anno df /\
    aggregate_ok Df.trimestre df /\
    aggregate_ok Df.prodotto df /\
    aggregate_ok Df.area_geografica df.
Proof.
  intros df. split; [| split; [| split]]; apply groupby_sum_aggregate_ok.
Qed.

(** The aggregate of the specification's example. *)
Example groupby_sum_year_revenue :
  groupby_sum Df.anno Df.ricavo example_records = [(2024, 150%float)].
Proof. reflexivity. Qed.

(** C4 as the specification states it fails for the revenue: [float64]
    addition rounds, so the group sums 1e16 and 2 add up to 1e16 + 2 while
    the column, summed in order, stays at 1e16. *)
Lemma aggregate_revenue_counterexample :
  msum (map snd (groupby_sum Df.anno Df.ricavo large_and_small))
  <> msum (map Df.ricavo large_and_small).
Proof.
  intros Heq.
  assert (Hb : PrimFloat.eqb
                 (msum (map snd (groupby_sum Df.anno Df.ricavo large_and_small)))
                 (msum (map Df.ricavo large_and_small))
               = PrimFloat.eqb (msum (map Df.ricavo large_and_small))
                               (msum (map Df.ricavo large_and_small)))
    by (now rewrite Heq).
  vm_compute in Hb. discriminate.
Qed.

(* ================================================================== *)
(** * Further properties of the code *)

Local Open Scope list_scope.

(** ** Inserting and loading *)

Lemma insert_data_Ok (conn conn' : Conn) (data : Data) (i : Z) :
  insert_data conn data = Ok (conn', i) ->
  exists r,
    conn' = {| vendite := vendite conn ++ [r]; fault := fault conn |} /\
    Sql.id r = i /\ i = next_id (vendite conn) /\ data = data_of (csv_of r).
Proof.
  unfold insert_data.
  destruct data as [[[[[[[[n |] [e |]] [a |]] [t |]] [p |]] [g |]] [q |]] [v |]];
    try discriminate.
  intros [= <- <-]. eexists. repeat split.
Qed.















Lemma filter_by_email_healthy (conn : Conn) (email : string) :
  fault conn = None ->
  filter_by_email conn email
  = Ok (map selected
          (filter (fun r => (Sql.email_commerciale r =? email)%string)
                  (vendite conn))).
Proof. unfold filter_by_email, read_sql_query. now intros ->. Qed.




(** X5.  The frame for an email is scoped to it: every record in it is the
    selection of a table row whose email is exactly the one asked for, and
    on a readable store every such row is in it. *)
Theorem filter_by_email_scoped :
  forall (conn : Conn) (email : string) (df : DataFrame),
    filter_by_email conn email = Ok df ->
    (forall r, In r df ->
       exists row, In row (vendite conn) /\
                   Sql.email_commerciale row = email /\ selected row = r) /\
    (List.length df <= List.length (vendite conn))%nat /\
    (fault conn = None ->
     forall row, In row (vendite conn) -> Sql.email_commerciale row = email ->
                 In (selected row) df).
Proof.
  intros conn email df Hread.
  set (p := fun r => (Sql.email_commerciale r =? email)%string).
  assert (Hdf : df = [] \/ df = map selected (filter p (vendite conn))).
  { unfold filter_by_email, read_sql_query in Hread.
    destruct (fault conn) as [[|] |]; simpl in Hread; try discriminate.
    - left. now injection Hread.
    - right. now injection Hread. }
  split; [| split].
  - intros r Hr. destruct Hdf as [-> | ->]; [contradiction |].
    apply in_map_iff in Hr as [row [Hsel Hrow]].
    apply filter_In in Hrow as [Hin Hp]. apply String.eqb_eq in Hp.
    now exists row.
  - destruct Hdf as [-> | ->]; simpl; [lia |].
    rewrite length_map. apply filter_length_le.
  - intros Hfault row Hin Hemail.
    rewrite filter_by_email_healthy in Hread by assumption.
    injection Hread as <-.
    apply in_map, filter_In. split; [assumption |].
    now apply String.eqb_eq.
Qed.

Lemma filter_by_email_scoped_witness :
  (forall r,
      In r [Df.mk "Luca" 2024 1 "A" "North" 10 100%float] ->
      exists row, In row (vendite shared) /\
                  Sql.email_commerciale row = "luca@example.com" /\
                  selected row = r) /\
  (List.length [Df.mk "Luca" 2024 1 "A" "North" 10 100%float]
   <= List.length (vendite shared))%nat /\
  (fault shared = None ->
   forall row, In row (vendite shared) ->
               Sql.email_commerciale row = "luca@example.com" ->
               In (selected row) [Df.mk "Luca" 2024 1 "A" "North" 10 100%float]).
Proof.
  apply (filter_by_email_scoped shared "luca@example.com").
  reflexivity.
Defined.

(** ** Printing a number and reading it back *)

Lemma digits_step (c : ascii) (d acc : Z) (b : bool) (t : list ascii) :
  digit_val c = Some d -> digits acc b (c :: t) = digits (10 * acc + d) true t.
Proof. intros H. simpl. now rewrite H. Qed.

Ltac step_digit :=
  match goal with
  | |- context [digits _ _ (?c :: _)] =>
      let d := eval vm_compute in (digit_val c) in
      match d with
      | Some ?v => rewrite (digits_step c v _ _ _ eq_refl)
      end
  end.

Lemma digits_acc (u : Decimal.uint) :
  forall acc : positive,
    digits (Zpos acc) true (chars u) = Some (Zpos (Pos.of_uint_acc u acc)).
Proof.
  induction u; intros acc; unfold chars in *;
    cbn [NilEmpty.string_of_uint list_ascii_of_string Pos.of_uint_acc];
    try reflexivity.
  all: step_digit.
  all: match goal with
       | |- digits ?a _ _ = Some (Zpos (Pos.of_uint_acc _ ?p)) =>
           replace a with (Zpos p) by lia
       end; apply IHu.
Qed.

Lemma digits_uint (u : Decimal.uint) :
  digits 0 true (chars u) = Some (Z.of_N (Pos.of_uint u)).
Proof.
  induction u; unfold chars in *;
    cbn [NilEmpty.string_of_uint list_ascii_of_string Pos.of_uint];
    try reflexivity.
  all: step_digit.
  - exact IHu.
  - apply (digits_acc u 1).
  - apply (digits_acc u 2).
  - apply (digits_acc u 3).
  - apply (digits_acc u 4).
  - apply (digits_acc u 5).
  - apply (digits_acc u 6).
  - apply (digits_acc u 7).
  - apply (digits_acc u 8).
  - apply (digits_acc u 9).
Qed.

Lemma chars_no_space (u : Decimal.uint) :
  Forall (fun c => is_space c = false) (chars u).
Proof.
  induction u; unfold chars in *; simpl; constructor;
    try reflexivity; assumption.
Qed.

Lemma strip_id (l : list ascii) :
  Forall (fun c => is_space c = false) l -> strip l = l.
Proof.
  intros H. unfold strip.
  assert (L : forall l', Forall (fun c => is_space c = false) l' -> lstrip l' = l').
  { intros l' H'. destruct H' as [| c t Hc Ht]; [reflexivity |].
    simpl. now rewrite Hc. }
  rewrite (L l H). rewrite L by now apply Forall_rev. apply rev_involutive.
Qed.

Lemma parse_unsigned (u : Decimal.uint) :
  u <> Decimal.Nil ->
  match chars u with
  | "+"%char :: t => digits 0 false t
  | "-"%char :: t => option_map Z.opp (digits 0 false t)
  | l => digits 0 false l
  end = Some (Z.of_N (Pos.of_uint u)).
Proof.
  intros Hnil.
  destruct u as [| u | u | u | u | u | u | u | u | u | u]; [contradiction | ..];
    unfold chars; cbn [NilEmpty.string_of_uint list_ascii_of_string Pos.of_uint];
    cbv beta iota; fold (chars u); step_digit.
  - apply digits_uint.
  - apply (digits_acc u 1).
  - apply (digits_acc u 2).
  - apply (digits_acc u 3).
  - apply (digits_acc u 4).
  - apply (digits_acc u 5).
  - apply (digits_acc u 6).
  - apply (digits_acc u 7).
  - apply (digits_acc u 8).
  - apply (digits_acc u 9).
Qed.

Lemma digits_false_true (u : Decimal.uint) :
  u <> Decimal.Nil -> digits 0 false (chars u) = digits 0 true (chars u).
Proof.
  intros Hnil.
  destruct u; [contradiction | ..]; unfold chars;
    cbn [NilEmpty.string_of_uint list_ascii_of_string]; now repeat step_digit.
Qed.

(** [int(str(z)) == z] *)
Lemma py_int_str (z : Z) : py_int (str z) = Some z.
Proof.
  unfold py_int, str.
  destruct z as [| p | p]; [reflexivity | |].
  - cbn [Z.to_int NilZero.string_of_int].
    pose proof (Unsigned.to_uint_nonnil p) as Hnil.
    replace (NilZero.string_of_uint (Pos.to_uint p))
      with (NilEmpty.string_of_uint (Pos.to_uint p))
      by (destruct (Pos.to_uint p); [contradiction | reflexivity ..]).
    fold (chars (Pos.to_uint p)).
    rewrite strip_id by apply chars_no_space.
    rewrite parse_unsigned by assumption.
    now rewrite Unsigned.of_to.
  - cbn [Z.to_int NilZero.string_of_int].
    pose proof (Unsigned.to_uint_nonnil p) as Hnil.
    replace (NilZero.string_of_uint (Pos.to_uint p))
      with (NilEmpty.string_of_uint (Pos.to_uint p))
      by (destruct (Pos.to_uint p); [contradiction | reflexivity ..]).
    cbn [list_ascii_of_string]. fold (chars (Pos.to_uint p)).
    rewrite strip_id by (constructor; [reflexivity | apply chars_no_space]).
    cbv beta iota.
    rewrite digits_false_true, digits_uint by assumption.
    now rewrite Unsigned.of_to.
Qed.

(** ** More on query_data and the side bar *)

Lemma py_int_constrains (s : string) (y : Z) :
  py_int s = Some y -> constrains "Tutti" (Some s) = true.
Proof.
  intros Hint. unfold constrains, truthy, ne.
  destruct (String.eqb_spec s "") as [-> | _]; [vm_compute in Hint; discriminate |].
  destruct (String.eqb_spec s "Tutti") as [-> | _];
    [vm_compute in Hint; discriminate | reflexivity].
Qed.

Lemma int_criterion_Some (s : string) (y : Z) :
  py_int s = Some y -> int_criterion (Some s) = Ok (Some y).
Proof.
  intros Hint. unfold int_criterion, int.
  rewrite (py_int_constrains s y Hint). simpl. now rewrite Hint.
Qed.



Section Labels.

Context {K : Type} `{KeyOrdLaws K}.

Lemma insert_label_In (k x : K) (l : list K) :
  In x (insert_label k l) <-> x = k \/ In x l.
Proof.
  induction l as [| k' rest IH]; simpl.
  - intuition.
  - destruct (kcmp k k') eqn:Hcmp; simpl.
    + apply kcmp_eq in Hcmp. subst k'. intuition.
    + intuition.
    + rewrite IH. intuition.
Qed.

Lemma sorted_unique_snoc (l : list K) (k : K) :
  sorted_unique (l ++ [k]) = insert_label k (sorted_unique l).
Proof. unfold sorted_unique. now rewrite fold_left_app. Qed.

Lemma sorted_unique_In (x : K) (l : list K) :
  In x (sorted_unique l) <-> In x l.
Proof.
  induction l as [| k l IH] using rev_ind; [reflexivity |].
  rewrite sorted_unique_snoc, insert_label_In, IH, in_app_iff. simpl. intuition.
Qed.

End Labels.

Lemma upsert_insert_label {K M : Type} `{KeyOrd K} `{Measure M}
    (k : K) (m : M) (acc : list (K * M)) :
  map fst (upsert k m acc) = insert_label k (map fst acc).
Proof.
  induction acc as [| [k' s] rest IH]; simpl; [reflexivity |].
  destruct (kcmp k k'); simpl; [reflexivity | reflexivity | now rewrite IH].
Qed.

(** X11.  The labels of a grouped sum are the distinct values of the key
    column in ascending order, whatever is summed; for the year they are
    the years the side bar offers. *)
Theorem groupby_sum_labels_are_sorted_unique :
  forall (df : DataFrame),
    (forall (key : Df.row -> Z),
        map fst (groupby_sum key Df.ricavo df) = sorted_unique (map key df) /\
        map fst (groupby_sum key Df.quantita df) = sorted_unique (map key df) /\
        map fst (groupby_agg key df) = sorted_unique (map key df)) /\
    (forall (key : Df.row -> string),
        map fst (groupby_sum key Df.ricavo df) = sorted_unique (map key df) /\
        map fst (groupby_sum key Df.quantita df) = sorted_unique (map key df) /\
        map fst (groupby_agg key df) = sorted_unique (map key df)) /\
    anni_disponibili_str df = map str (map fst (groupby_sum Df.anno Df.ricavo df)).
Proof.
  assert (G : forall (K M : Type) (HK : KeyOrd K) (HM : Measure M)
                     (key : Df.row -> K) (measure : Df.row -> M) (df : DataFrame),
             map fst (groupby_sum key measure df) = sorted_unique (map key df)).
  { intros K M HK HM key measure df.
    induction df as [| r df IH] using rev_ind; [reflexivity |].
    unfold groupby_sum, sorted_unique in *.
    rewrite map_app, !fold_left_app. simpl.
    now rewrite upsert_insert_label, IH. }
  intros df. unfold groupby_agg, anni_disponibili_str.
  repeat split; try apply G. now rewrite G.
Qed.

(** ** The side bar never asks what query_data cannot answer *)

Lemma unless_str (y : Z) : unless "Tutti" (str y) = Some (str y).
Proof.
  unfold unless.
  destruct (String.eqb_spec (str y) "Tutti") as [Heq | _]; [| reflexivity].
  pose proof (py_int_str y) as Hint. rewrite Heq in Hint.
  vm_compute in Hint. discriminate.
Qed.

Lemma int_criterion_choice (selected : string) (l : list Z) :
  In selected ("Tutti" :: map str l) ->
  int_criterion (unless "Tutti" selected) = Ok None \/
  exists y, In y l /\ int_criterion (unless "Tutti" selected) = Ok (Some y).
Proof.
  intros [<- | Hin].
  - now left.
  - right. apply in_map_iff in Hin as [y [<- Hy]].
    exists y. split; [assumption |].
    rewrite unless_str. apply int_criterion_Some, py_int_str.
Qed.

Lemma offered_choices_parse (df : DataFrame) (i : Inputs) :
  offered df i -> exists out, risultati_query df i = Ok out.
Proof.
  intros (Hanno & Htrim & _ & _).
  unfold risultati_query. rewrite query_data_eq.
  unfold anni_disponibili_str, trimestri_disponibili_str in *.
  destruct (int_criterion_choice _ _ Hanno) as [-> | [y [_ ->]]];
    destruct (int_criterion_choice _ _ Htrim) as [-> | [q [_ ->]]];
    simpl; eexists; reflexivity.
Qed.

(** X9.  Whatever the user picks in the four select boxes, the call of
    [query_data] in [main] does not raise: the years and quarters on offer
    are printed numbers, which [int] reads back.  The result holds records
    of the salesperson's frame only. *)
Theorem sidebar_choices_never_raise :
  forall (df_commerciale : DataFrame) (i : Inputs),
    offered df_commerciale i ->
    exists out,
      risultati_query df_commerciale i = Ok out /\ incl out df_commerciale.
Proof.
  intros df i (Hanno & Htrim & _ & _).
  unfold risultati_query. rewrite query_data_eq.
  unfold anni_disponibili_str, trimestri_disponibili_str in *.
  destruct (int_criterion_choice _ _ Hanno) as [-> | [y [_ ->]]];
    destruct (int_criterion_choice _ _ Htrim) as [-> | [q [_ ->]]];
    simpl; eexists; (split; [reflexivity |]);
    intros r Hr; now apply filter_In in Hr.
Qed.

Lemma sidebar_choices_never_raise_witness :
  exists out,
    risultati_query example_records luca_excludes_all = Ok out /\
    incl out example_records.
Proof.
  apply (sidebar_choices_never_raise example_records luca_excludes_all).
  unfold offered. simpl. tauto.
Defined.

Lemma keeps_own_str (sentinel value : string) :
  (if constrains sentinel (unless sentinel value)
   then (value =? the (unless sentinel value))%string else true) = true.
Proof.
  unfold unless.
  destruct (value =? sentinel)%string; [reflexivity |].
  destruct (constrains sentinel (Some value)); [| reflexivity].
  simpl. apply String.eqb_refl.
Qed.

(** X10.  Picking, in the four select boxes, the year, quarter, product and
    region of one of the salesperson's records is always possible, and the
    result then contains that record: the filter cannot come back empty on
    values taken from a single record. *)
Theorem picking_a_record_finds_it :
  forall (df_commerciale : DataFrame) (r : Df.row) (i : Inputs),
    In r df_commerciale ->
    anno_selezionato i = str (Df.anno r) ->
    trimestre_selezionato i = str (Df.trimestre r) ->
    prodotto_selezionato i = Df.prodotto r ->
    area_selezionata i = Df.area_geografica r ->
    offered df_commerciale i /\
    exists out, risultati_query df_commerciale i = Ok out /\ In r out.
Proof.
  intros df r i Hr Ha Ht Hp Hg. split.
  - unfold offered, anni_disponibili_str, trimestri_disponibili_str,
      prodotti_disponibili, aree_disponibili.
    rewrite Ha, Ht, Hp, Hg.
    repeat split; right.
    + apply in_map, sorted_unique_In. now apply in_map.
    + apply in_map, sorted_unique_In. now apply in_map.
    + apply sorted_unique_In. now apply in_map.
    + apply sorted_unique_In. now apply in_map.
  - unfold risultati_query. rewrite query_data_eq, Ha, Ht, Hp, Hg.
    rewrite !unless_str.
    rewrite (int_criterion_Some _ _ (py_int_str (Df.anno r))).
    rewrite (int_criterion_Some _ _ (py_int_str (Df.trimestre r))).
    simpl. eexists; split; [reflexivity |].
    apply filter_In. split; [assumption |].
    unfold keeps. rewrite !Z.eqb_refl, !keeps_own_str. reflexivity.
Qed.

Lemma picking_a_record_finds_it_witness :
  offered example_records luca_picks_first /\
  exists out,
    risultati_query example_records luca_picks_first = Ok out /\
    In (Df.mk "Luca" 2024 1 "A" "North" 10 100%float) out.
Proof.
  apply (picking_a_record_finds_it example_records
           (Df.mk "Luca" 2024 1 "A" "North" 10 100%float) luca_picks_first);
    try reflexivity.
  simpl. now left.
Defined.

(** ** Totals *)

Lemma wrap64_small (z : Z) : - 2 ^ 63 <= z < 2 ^ 63 -> wrap64 z = z.
Proof.
  intros Hz. unfold wrap64. rewrite Z.mod_small; lia.
Qed.

Lemma fold_add64 (l : list Z) :
  forall a : Z, fold_left add64 l (wrap64 a) = wrap64 (a + Zsum l).
Proof.
  induction l as [| x l IH]; intros a; simpl.
  - now rewrite Z.add_0_r.
  - unfold add64 at 2. rewrite wrap64_add_l, IH. f_equal. lia.
Qed.

Lemma msum_int64 (l : list Z) : msum l = wrap64 (Zsum l).
Proof.
  unfold msum. simpl. change 0 with (wrap64 0) at 1.
  now rewrite fold_add64.
Qed.

(** X12.  The total quantity, on the page and in the agent's answer, is the
    true sum of the column reduced to 64 bits: exact whenever the true sum
    fits in an [int64], also when a partial sum on the way does not. *)
Theorem total_quantity_exact_in_int64 :
  forall (df : DataFrame),
    - 2 ^ 63 <= Zsum (map Df.quantita df) < 2 ^ 63 ->
    msum (map Df.quantita df) = Zsum (map Df.quantita df) /\
    rule_answer total_quantity df
      = ("La tua quantità totale venduta è di "
         ++ str (Zsum (map Df.quantita df)) ++ ".")%string /\
    forall i : Inputs,
      df <> [] ->
      In (write ("Quantità Totale Venduta: "
                 ++ str (Zsum (map Df.quantita df)))%string)
         (col_main df i).
Proof.
  intros df Hfit.
  assert (Hsum : msum (map Df.quantita df) = Zsum (map Df.quantita df))
    by (rewrite msum_int64; now apply wrap64_small).
  split; [exact Hsum |]. split.
  - unfold rule_answer. now rewrite Hsum.
  - intros i Hdf. destruct df as [| r df]; [contradiction |].
    unfold col_main. cbn [empty]. rewrite Hsum. simpl. tauto.
Qed.

Lemma total_quantity_exact_in_int64_witness :
  msum (map Df.quantita example_records) = Zsum (map Df.quantita example_records) /\
  rule_answer total_quantity example_records
    = ("La tua quantità totale venduta è di "
       ++ str (Zsum (map Df.quantita example_records)) ++ ".")%string /\
  forall i : Inputs,
    example_records <> [] ->
    In (write ("Quantità Totale Venduta: "
               ++ str (Zsum (map Df.quantita example_records)))%string)
       (col_main example_records i).
Proof.
  apply (total_quantity_exact_in_int64 example_records).
  vm_compute. split; [intro H; discriminate H | reflexivity].
Defined.

(** ** The order of the rows does not matter to the integer sums *)

Section Reordering.

Context {K M : Type} `{KeyOrdLaws K} `{MeasureLaws M}.

Lemma fold_madd_perm (l l' : list M) :
  Permutation l l' -> forall x : M, fold_left madd l x = fold_left madd l' x.
Proof.
  induction 1 as [| a l l' _ IH | a b l | l l' l'' _ IH1 _ IH2]; intros x; simpl.
  - reflexivity.
  - apply IH.
  - f_equal. rewrite !madd_assoc. f_equal. apply madd_comm.
  - now rewrite IH1.
Qed.

Lemma members_perm (key : Df.row -> K) (k : K) (df df' : DataFrame) :
  Permutation df df' -> Permutation (members key k df) (members key k df').
Proof.
  unfold members.
  induction 1 as [| r l l' _ IH | r r' l | l l' l'' _ IH1 _ IH2]; simpl.
  - constructor.
  - destruct (kcmp (key r) k); auto.
  - destruct (kcmp (key r) k), (kcmp (key r') k); auto using perm_swap.
  - now transitivity (filter
        (fun r => match kcmp (key r) k with Eq => true | _ => false end) l').
Qed.

Lemma ascending_head_least (k : K) (s : M) (rest : list (K * M)) (x : K) :
  ascending (map fst ((k, s) :: rest)) ->
  In x (map fst rest) -> kcmp k x = Lt.
Proof.
  unfold ascending. simpl. intros Hsorted Hin.
  inversion Hsorted as [| ? ? _ Hall]; subst.
  rewrite Forall_forall in Hall. now apply Hall.
Qed.

(** Two tables of groups in ascending order that give the same sum for
    every label are the same table. *)
Lemma groups_ext (l l' : list (K * M)) :
  ascending (map fst l) -> ascending (map fst l') ->
  (forall k, group_of k l = group_of k l') -> l = l'.
Proof.
  revert l'. induction l as [| [k s] rest IH]; intros [| [k' s'] rest'] Hl Hl' Hext.
  - reflexivity.
  - specialize (Hext k'). simpl in Hext. rewrite kcmp_refl in Hext. discriminate.
  - specialize (Hext k). simpl in Hext. rewrite kcmp_refl in Hext. discriminate.
  - assert (Hk : k = k').
    { pose proof (Hext k) as E1. pose proof (Hext k') as E2.
      simpl in E1, E2. rewrite kcmp_refl in E1, E2.
      destruct (kcmp k k') eqn:Hcmp.
      - now apply kcmp_eq.
      - symmetry in E1. apply group_of_Some in E1.
        assert (Hin : In k (map fst rest'))
          by (change k with (fst (k, s)); now apply in_map).
        pose proof (ascending_head_least k' s' rest' k Hl' Hin) as Hlt.
        rewrite kcmp_antisym, Hcmp in Hlt. discriminate.
      - rewrite kcmp_antisym, Hcmp in E2. simpl in E2.
        apply group_of_Some in E2.
        assert (Hin : In k' (map fst rest))
          by (change k' with (fst (k', s')); now apply in_map).
        pose proof (ascending_head_least k s rest k' Hl Hin) as Hlt.
        rewrite Hcmp in Hlt. discriminate. }
    subst k'.
    assert (Hs : s = s').
    { specialize (Hext k). simpl in Hext. rewrite kcmp_refl in Hext.
      now injection Hext. }
    subst s'. f_equal.
    unfold ascending in Hl, Hl'. simpl in Hl, Hl'.
    inversion Hl as [| ? ? Hrest Hall]; subst.
    inversion Hl' as [| ? ? Hrest' Hall']; subst.
    apply IH; [assumption | assumption |].
    intros x. specialize (Hext x). simpl in Hext.
    destruct (kcmp x k) eqn:Hx; try assumption.
    apply kcmp_eq in Hx. subst x.
    rewrite !group_of_below; [reflexivity | assumption | assumption].
Qed.

Lemma groupby_sum_perm (key : Df.row -> K) (measure : Df.row -> M)
    (df df' : DataFrame) :
  Permutation df df' ->
  groupby_sum key measure df = groupby_sum key measure df'.
Proof.
  intros Hperm.
  apply groups_ext; try apply groupby_sum_ascending.
  intros k. rewrite !group_of_groupby_sum.
  pose proof (members_perm key k df df' Hperm) as Hmem.
  destruct (members key k df) as [| r l] eqn:E, (members key k df') as [| r' l'] eqn:E'.
  - reflexivity.
  - apply Permutation_nil in Hmem. discriminate.
  - apply Permutation_sym, Permutation_nil in Hmem. discriminate.
  - f_equal. unfold msum. apply fold_madd_perm. now apply Permutation_map.
Qed.

End Reordering.

(** X13.  The quantity sums do not depend on the order in which the scan
    returns the rows: two frames with the same records in any order give
    the same groups with the same sums, and the same total. *)
Theorem quantity_sums_ignore_row_order :
  forall (df df' : DataFrame),
    Permutation df df' ->
    groupby_sum Df.anno Df.quantita df = groupby_sum Df.anno Df.quantita df' /\
    groupby_sum Df.trimestre Df.quantita df
      = groupby_sum Df.trimestre Df.quantita df' /\
    groupby_sum Df.prodotto Df.quantita df
      = groupby_sum Df.prodotto Df.quantita df' /\
    groupby_sum Df.area_geografica Df.quantita df
      = groupby_sum Df.area_geografica Df.quantita df' /\
    msum (map Df.quantita df) = msum (map Df.quantita df').
Proof.
  intros df df' Hperm.
  repeat split; try now apply groupby_sum_perm.
  unfold msum. apply fold_madd_perm. now apply Permutation_map.
Qed.

Lemma quantity_sums_ignore_row_order_witness :
  groupby_sum Df.anno Df.quantita example_records
    = groupby_sum Df.anno Df.quantita (rev example_records) /\
  groupby_sum Df.trimestre Df.quantita example_records
    = groupby_sum Df.trimestre Df.quantita (rev example_records) /\
  groupby_sum Df.prodotto Df.quantita example_records
    = groupby_sum Df.prodotto Df.quantita (rev example_records) /\
  groupby_sum Df.area_geografica Df.quantita example_records
    = groupby_sum Df.area_geografica Df.quantita (rev example_records) /\
  msum (map Df.quantita example_records)
    = msum (map Df.quantita (rev example_records)).
Proof.
  apply (quantity_sums_ignore_row_order example_records (rev example_records)).
  apply Permutation_rev.
Defined.

(** ** The detail tables *)

Lemma upsert_fst {K A B : Type} `{KeyOrd K} `{Measure A} `{Measure B}
    (k : K) (a : A) (b : B) (acc : list (K * (A * B))) :
  map (fun g => (fst g, fst (snd g))) (upsert k (a, b) acc)
  = upsert k a (map (fun g => (fst g, fst (snd g))) acc) /\
  map (fun g => (fst g, snd (snd g))) (upsert k (a, b) acc)
  = upsert k b (map (fun g => (fst g, snd (snd g))) acc).
Proof.
  induction acc as [| [k' [sa sb]] rest [IHa IHb]]; simpl; [now split |].
  destruct (kcmp k k'); simpl; split; try reflexivity.
  - now rewrite IHa.
  - now rewrite IHb.
Qed.

Lemma groupby_agg_columns {K : Type} `{KeyOrd K} (key : Df.row -> K)
    (df : DataFrame) :
  map (fun g => (fst g, fst (snd g))) (groupby_agg key df)
  = groupby_sum key Df.ricavo df /\
  map (fun g => (fst g, snd (snd g))) (groupby_agg key df)
  = groupby_sum key Df.quantita df.
Proof.
  unfold groupby_agg, groupby_sum.
  induction df as [| r df [IHa IHb]] using rev_ind; [now split |].
  rewrite !fold_left_app. simpl.
  destruct (upsert_fst (key r) (Df.ricavo r) (Df.quantita r)
              (fold_left
                 (fun acc r0 => upsert (key r0) (Df.ricavo r0, Df.quantita r0) acc)
                 df [])) as [Ha Hb].
  rewrite Ha, Hb, IHa, IHb. now split.
Qed.

(** X14.  A detail table of the page shows, group by group, the revenue the
    agent reports for that grouping and the quantity sum of the same
    group: its two columns are the two single sums side by side, and its
    quantity column adds up to the total quantity shown above it. *)
Theorem detail_table_columns :
  forall (df : DataFrame),
    (forall key : Df.row -> Z,
        map (fun g => (fst g, fst (snd g))) (groupby_agg key df)
        = groupby_sum key Df.ricavo df /\
        map (fun g => (fst g, snd (snd g))) (groupby_agg key df)
        = groupby_sum key Df.quantita df /\
        msum (map (fun g => snd (snd g)) (groupby_agg key df))
        = msum (map Df.quantita df)) /\
    (forall key : Df.row -> string,
        map (fun g => (fst g, fst (snd g))) (groupby_agg key df)
        = groupby_sum key Df.ricavo df /\
        map (fun g => (fst g, snd (snd g))) (groupby_agg key df)
        = groupby_sum key Df.quantita df /\
        msum (map (fun g => snd (snd g)) (groupby_agg key df))
        = msum (map Df.quantita df)).
Proof.
  assert (G : forall (K : Type) (HK : KeyOrd K) (HL : KeyOrdLaws K)
                     (key : Df.row -> K) (df : DataFrame),
             msum (map (fun g => snd (snd g)) (groupby_agg key df))
             = msum (map Df.quantita df)).
  { intros K HK HL key df.
    rewrite <- (groupby_sum_total key Df.quantita df).
    destruct (groupby_agg_columns key df) as [_ <-].
    now rewrite map_map. }
  intros df. split; intros key;
    (split; [apply groupby_agg_columns |
             split; [apply groupby_agg_columns | apply G; typeclasses eauto]]).
Qed.

(** ** Keywords *)

Lemma prefix_spec (n h : string) :
  String.prefix n h = true <-> exists b, h = (n ++ b)%string.
Proof.
  revert h. induction n as [| c n IH]; intros h; simpl.
  - split; [intros _; now exists h | now destruct h].
  - destruct h as [| c' h]; simpl.
    + split; [discriminate | intros [b Hb]; discriminate].
    + destruct (ascii_dec c c') as [-> | Hne].
      * rewrite IH. split; intros [b Hb]; exists b; [now rewrite Hb | now injection Hb].
      * split; [discriminate | intros [b Hb]; injection Hb as Hc _; now symmetry in Hc].
Qed.

Lemma string_app_assoc (a b c : string) :
  ((a ++ b) ++ c = a ++ (b ++ c))%string.
Proof. induction a as [| x a IH]; simpl; [reflexivity | now rewrite IH]. Qed.

Lemma contains_spec (n h : string) :
  contains n h = true <-> exists a b, h = (a ++ n ++ b)%string.
Proof.
  induction h as [| c h IH]; cbn [contains].
  - rewrite orb_false_r, prefix_spec. split.
    + intros [b Hb]. now exists ""%string, b.
    + intros [a [b Hab]]. destruct a; [now exists b | discriminate].
  - rewrite orb_true_iff, prefix_spec, IH. split.
    + intros [[b Hb] | [a [b Hab]]].
      * now exists ""%string, b.
      * exists (String c a), b. simpl. now rewrite Hab.
    + intros [a [b Hab]]. destruct a as [| c' a]; simpl in Hab.
      * left. now exists b.
      * right. injection Hab as _ Hh. now exists a, b.
Qed.

Lemma contains_app (x y h : string) :
  contains (x ++ y) h = true -> contains x h = true /\ contains y h = true.
Proof.
  rewrite !contains_spec. intros [a [b Hab]]. split.
  - exists a, (y ++ b)%string. now rewrite Hab, string_app_assoc.
  - exists (a ++ x)%string, b. now rewrite Hab, !string_app_assoc.
Qed.

Lemma contains_trans (a b c : string) :
  contains a b = true -> contains b c = true -> contains a c = true.
Proof.
  rewrite !contains_spec. intros [p [s Hb]] [p' [s' Hc]].
  exists (p' ++ p)%string, (s ++ s')%string.
  now rewrite Hc, Hb, !string_app_assoc.
Qed.

(** X15.  The second test of each of the two total rules never decides: a
    question holds "totale ricavo" only if it holds "ricavo" and "totale",
    so the total-revenue rule fires exactly when both words occur, in any
    order and anywhere, and likewise for the quantity. *)
Theorem total_rules_need_both_words_only :
  forall q : string,
    rule_matches total_revenue q = contains "ricavo" q && contains "totale" q /\
    rule_matches total_quantity q
      = contains "quantità" q && contains "totale" q.
Proof.
  intros q. unfold rule_matches. split.
  - destruct (contains "totale ricavo" q) eqn:Hphrase;
      [| now rewrite orb_false_r].
    change "totale ricavo"%string
      with ("totale" ++ (" " ++ "ricavo"))%string in Hphrase.
    apply contains_app in Hphrase as [Ht Hr].
    apply contains_app in Hr as [_ Hr].
    now rewrite Ht, Hr.
  - destruct (contains "totale quantità" q) eqn:Hphrase;
      [| now rewrite orb_false_r].
    change "totale quantità"%string
      with ("totale" ++ (" " ++ "quantità"))%string in Hphrase.
    apply contains_app in Hphrase as [Ht Hr].
    apply contains_app in Hr as [_ Hr].
    now rewrite Ht, Hr.
Qed.

(** X16.  Words added before or after a question never lose a rule: every
    rule that matches a lower-cased question matches any text that holds it,
    so a recognised question stays recognised. *)
Theorem keywords_survive_extra_words :
  forall q q' : string,
    contains q q' = true ->
    (forall i, rule_matches i q = true -> rule_matches i q' = true) /\
    (first_match q <> None -> first_match q' <> None).
Proof.
  intros q q' Hsub.
  assert (Hkw : forall w, contains w q = true -> contains w q' = true)
    by (intros w Hw; now apply (contains_trans w q q')).
  assert (Hrule : forall i, rule_matches i q = true -> rule_matches i q' = true).
  { intros i. unfold rule_matches.
    destruct i;
      rewrite ?orb_true_iff, ?andb_true_iff, ?orb_true_iff;
      intuition auto. }
  split; [exact Hrule |].
  unfold first_match. intros Hsome.
  destruct (find (fun i => rule_matches i q) priority_order) as [i |] eqn:Hfind;
    [| contradiction].
  apply find_some in Hfind as [Hin Hi].
  intros Hnone.
  apply (find_none _ _ Hnone) in Hin. cbn beta in Hin.
  rewrite (Hrule i Hi) in Hin. discriminate.
Qed.

Lemma keywords_survive_extra_words_witness :
  (forall i,
      rule_matches i "vendite per anno" = true ->
      rule_matches i "dimmi le vendite per anno, grazie" = true) /\
  (first_match "vendite per anno" <> None ->
   first_match "dimmi le vendite per anno, grazie" <> None).
Proof.
  apply (keywords_survive_extra_words "vendite per anno"
           "dimmi le vendite per anno, grazie").
  reflexivity.
Defined.

(** ** A run of main *)

Lemma insert_rows_fault (rows : list CsvRow) :
  forall conn : Conn, fault (fst (insert_rows conn rows)) = fault conn.
Proof.
  induction rows as [| row rows IH]; intros conn; [reflexivity |].
  cbn [insert_rows].
  destruct (insert_data conn (data_of row)) as [[conn' i] | e] eqn:Hins;
    [| reflexivity].
  destruct (insert_data_Ok _ _ _ _ Hins) as (r & -> & _).
  now rewrite IH.
Qed.

Lemma main_load_fault (conn : Conn) (rows : list CsvRow) :
  fault (fst (main_load conn rows)) = fault conn.
Proof.
  unfold main_load. pose proof (insert_rows_fault rows conn) as Hf.
  now destruct (insert_rows conn rows) as [c [[] | e]].
Qed.





(** X19.  With selections taken from the select boxes a run can end on an
    exception in one way only: the SELECT of [filter_by_email] cannot be
    executed and pandas' [DatabaseError] leaves [main], after the file has
    been loaded and the success shown. *)
Theorem main_raises_only_when_select_fails :
  forall (lower : string -> string),
  forall (conn : Conn) (rows : list CsvRow) (i : Inputs) (e : exn),
    (forall df, filter_by_email (fst (main_load conn rows)) (email_commerciale i)
                = Ok df -> offered df i) ->
    main lower (Some conn) rows i = Raise e ->
    e = pandas_DatabaseError /\
    fault conn = Some fails_in_execute /\
    snd (main_load conn rows) = st_success /\
    email_commerciale i <> ""%string.
Proof.
  intros lower conn rows i e Hoffered Hraise.
  unfold main in Hraise.
  pose proof (main_load_fault conn rows) as Hfault.
  destruct (main_load conn rows) as [conn' [| e']]; [| discriminate].
  cbn [fst snd] in *.
  destruct (String.eqb_spec (email_commerciale i) "") as [| Hemail];
    [discriminate |].
  destruct (filter_by_email conn' (email_commerciale i)) as [df |] eqn:Hread.
  - cbn [bind] in Hraise.
    destruct (empty df); [discriminate |].
    destruct (offered_choices_parse df i (Hoffered df eq_refl))
      as [out Hout].
    rewrite Hout in Hraise. discriminate.
  - cbn [bind] in Hraise. injection Hraise as <-.
    unfold filter_by_email, read_sql_query in Hread.
    rewrite Hfault in Hread.
    destruct (fault conn) as [[|] |]; simpl in Hread; try discriminate.
    injection Hread as <-. repeat split; assumption.
Qed.

Lemma main_raises_only_when_select_fails_witness :
  pandas_DatabaseError = pandas_DatabaseError /\
  fault shared_unexecutable = Some fails_in_execute /\
  snd (main_load shared_unexecutable [csv_a]) = st_success /\
  email_commerciale luca_asks <> ""%string.
Proof.
  apply (main_raises_only_when_select_fails lower_ascii shared_unexecutable [csv_a] luca_asks).
  - intros df H. vm_compute in H. discriminate H.
  - reflexivity.
Defined.

(** X20.  The agent answers about the filtered records, not about the
    salesperson's frame: when the selections leave no record, the page
    says that nothing was found and shows no table, and whatever is asked
    the agent replies that there are no sales data for the email, although
    the email has records. *)
Theorem main_filters_leave_nothing :
  forall (lower : string -> string),
  forall (conn conn' : Conn) (rows : list CsvRow) (i : Inputs)
         (df_commerciale : DataFrame),
    main_load conn rows = (conn', st_success) ->
    email_commerciale i <> ""%string ->
    filter_by_email conn' (email_commerciale i) = Ok df_commerciale ->
    df_commerciale <> [] ->
    risultati_query df_commerciale i = Ok [] ->
    main lower (Some conn) rows i
      = Ok {| shown :=
                [title; loading st_success; sidebar_header;
                 subheader "Risultati della Query:"; info_no_results;
                 subheader "Domanda all'Agente:"]
                ++ (if (domanda_agente i =? "")%string then []
                    else [write "Risposta dell'Agente:"; write NO_DATA]);
              db := Some conn';
              closed := true |}.
Proof.
  intros lower conn conn' rows i df Hload Hemail Hread Hdf Hquery.
  unfold main. rewrite Hload.
  apply String.eqb_neq in Hemail. rewrite Hemail, Hread. cbn [bind].
  destruct df as [| r df]; [contradiction |]. cbn [empty].
  rewrite Hquery. cbn [bind]. unfold col_main, col_agent. cbn [empty].
  destruct (domanda_agente i =? "")%string; reflexivity.
Qed.

Lemma main_filters_leave_nothing_witness :
  main lower_ascii (Some fresh) [csv_a; csv_b] luca_excludes_all
    = Ok {| shown :=
              [title; loading st_success; sidebar_header;
               subheader "Risultati della Query:"; info_no_results;
               subheader "Domanda all'Agente:"]
              ++ (if (domanda_agente luca_excludes_all =? "")%string then []
                  else [write "Risposta dell'Agente:"; write NO_DATA]);
            db := Some (fst (main_load fresh [csv_a; csv_b]));
            closed := true |}.
Proof.
  apply (main_filters_leave_nothing lower_ascii fresh (fst (main_load fresh [csv_a; csv_b]))
           [csv_a; csv_b] luca_excludes_all example_records).
  - reflexivity.
  - discriminate.
  - reflexivity.
  - discriminate.
  - reflexivity.
Defined.

(** ** Edge cases of the filter and of the agent *)

(** X7.  Criteria that do not constrain (absent, empty or the sentinel of
    their option) give the frame back as it is, every record in place; so
    does the page before anything is picked. *)
Theorem query_data_without_constraints :
  forall (df : DataFrame) (anno trimestre prodotto area : option string),
    constrains "Tutti" anno = false ->
    constrains "Tutti" trimestre = false ->
    constrains "Tutti" prodotto = false ->
    constrains "Tutte" area = false ->
    query_data df anno trimestre prodotto area = Ok df /\
    forall i : Inputs,
      anno_selezionato i = "Tutti"%string ->
      trimestre_selezionato i = "Tutti"%string ->
      prodotto_selezionato i = "Tutti"%string ->
      area_selezionata i = "Tutte"%string ->
      risultati_query df i = Ok df.
Proof.
  assert (Hall : forall df : DataFrame, filter (fun _ => true) df = df).
  { intros df. induction df as [| r df IH]; simpl; [reflexivity | now rewrite IH]. }
  intros df anno trimestre prodotto area Ha Ht Hp Hg. split.
  - rewrite query_data_eq, (int_criterion_idle _ Ha), (int_criterion_idle _ Ht).
    simpl. rewrite <- (Hall df) at 2. apply f_equal, filter_ext.
    intros r. unfold keeps. now rewrite Hp, Hg.
  - intros i Hia Hit Hip Hig. unfold risultati_query.
    rewrite Hia, Hit, Hip, Hig, query_data_eq. simpl.
    rewrite <- (Hall df) at 2. now apply f_equal, filter_ext.
Qed.

Lemma query_data_without_constraints_witness :
  query_data example_records (Some "") None (Some "Tutti") (Some "Tutte")
    = Ok example_records /\
  forall i : Inputs,
    anno_selezionato i = "Tutti"%string ->
    trimestre_selezionato i = "Tutti"%string ->
    prodotto_selezionato i = "Tutti"%string ->
    area_selezionata i = "Tutte"%string ->
    risultati_query example_records i = Ok example_records.
Proof.
  apply (query_data_without_constraints example_records
           (Some "") None (Some "Tutti") (Some "Tutte")); reflexivity.
Defined.

Lemma rule_answer_not_fixed (i : intent) (df : DataFrame) :
  rule_answer i df <> NO_DATA /\ rule_answer i df <> FALLBACK.
Proof.
  destruct i; split; unfold rule_answer, NO_DATA, FALLBACK; simpl; discriminate.
Qed.

(** X8.  The two fixed messages of the agent are unambiguous: the no-data
    message is returned exactly when the frame has no rows, and on a frame
    with rows the fallback is returned exactly when no rule matches the
    lower-cased question. *)
Theorem fixed_messages_are_unambiguous :
  forall (lower : string -> string) (df : DataFrame) (domanda : string),
    (get_agent_response lower df domanda = NO_DATA <-> df = []) /\
    (df <> [] ->
     (get_agent_response lower df domanda = FALLBACK
      <-> first_match (lower domanda) = None)).
Proof.
  intros lower df domanda.
  destruct df as [| r df].
  - split; [split; reflexivity | intros H; contradiction].
  - assert (Hspec : get_agent_response lower (r :: df) domanda
                    = respond_spec lower (r :: df) domanda).
    { rewrite get_agent_response_chain.
      unfold respond_spec, first_match, priority_order. cbn [find].
      repeat match goal with
             | |- context [rule_matches ?i ?q] =>
                 destruct (rule_matches i q); [reflexivity |]
             end.
      reflexivity. }
    rewrite Hspec. unfold respond_spec.
    destruct (first_match (lower domanda)) as [i |].
    + destruct (rule_answer_not_fixed i (r :: df)) as [Hno Hfall].
      split; [split; [intros H; contradiction | discriminate] |].
      intros _. split; [intros H; contradiction | discriminate].
    + split; [split; [discriminate | discriminate] |].
      intros _. split; reflexivity.
Qed.

(** X21.  A run that ends without an exception leaves the table as the
    loading block left it, reading and filtering write nothing, and it has
    closed the connection exactly when the loading succeeded: after a
    loading error [main] returns with the connection open. *)
Theorem main_closes_unless_loading_failed :
  forall (lower : string -> string) (conn : Conn) (rows : list CsvRow)
         (i : Inputs) (run : Run),
    main lower (Some conn) rows i = Ok run ->
    db run = Some (fst (main_load conn rows)) /\
    closed run = match snd (main_load conn rows) with
                 | st_success => true
                 | st_error _ => false
                 end /\
    exists rest, shown run = title :: loading (snd (main_load conn rows)) :: rest.
Proof.
  intros lower conn rows i run Hrun.
  unfold main in Hrun.
  destruct (main_load conn rows) as [conn' [| e]]; cbn [fst snd].
  - destruct (email_commerciale i =? "")%string.
    + injection Hrun as <-. repeat split. now exists [].
    + destruct (filter_by_email conn' (email_commerciale i)) as [df | e];
        [| discriminate].
      cbn [bind] in Hrun.
      destruct (empty df).
      * injection Hrun as <-. repeat split. now eexists.
      * destruct (risultati_query df i) as [out | e]; [| discriminate].
        injection Hrun as <-. repeat split. now eexists.
  - injection Hrun as <-. repeat split. now exists [].
Qed.

Lemma main_closes_unless_loading_failed_witness :
  db {| shown := [title; loading (st_error sqlite3_IntegrityError)];
        db := Some fresh; closed := false |}
    = Some (fst (main_load fresh [csv_no_product])) /\
  closed {| shown := [title; loading (st_error sqlite3_IntegrityError)];
            db := Some fresh; closed := false |}
    = match snd (main_load fresh [csv_no_product]) with
      | st_success => true
      | st_error _ => false
      end /\
  exists rest,
    shown {| shown := [title; loading (st_error sqlite3_IntegrityError)];
             db := Some fresh; closed := false |}
    = title :: loading (snd (main_load fresh [csv_no_product])) :: rest.
Proof.
  apply (main_closes_unless_loading_failed lower_ascii fresh [csv_no_product]
           nothing_picked).
  reflexivity.
Defined.
